(** * Medical store backend: the medicine routes

    A shallow embedding of [routes/medicineRoutes.js] (the add route
    [router.post('/')] and the availability route [router.get('/check')])
    together with the Mongoose schema of [models/medicine.js].

    The handlers talk to four collaborators that are not part of the
    repository: the JavaScript string and [RegExp] runtime, the MongoDB
    collection behind the [Medicine] model, the Fuse.js matcher and the
    Gemini text service.  Each is modelled as follows.

    - Strings are [string]s of 8-bit codes.  Case mapping and whitespace
      are the ASCII ones; codes above 127 are left alone by both.
    - [new RegExp(`^${name}$`, 'i')] is parsed and run by a small engine
      for patterns built from literals, [.], [*], [+], [?], [|], groups
      and the two anchors.  A pattern that uses anything else (a
      backslash, a bracket, a brace, a [(?] group) is handed to
      [host_regexp], a parameter standing for the rest of the engine.
      The constructor runs in the handler (that is where a [SyntaxError]
      is thrown); the database evaluates the pattern it is sent, with the
      same result on this fragment for names without line breaks.
    - The collection is the list of its documents in insertion order;
      [findOne] returns the first document that satisfies the filter.
    - Fuse.js keeps its structure (index, exact shortcut, scoring, sort,
      format), with the Bitap scorer and the field-length norm taken as
      parameters; scores are rationals.
    - Gemini is a function from the model and the prompt to a reply or
      a failure.

    Numbers: [quantityInStock] is an integer, [price] a rational.  The
    query parameters and the body fields are strings (or numbers) or
    absent.  The database is taken to answer every call.

    The router file holds two older revisions of the same handlers after
    the current one; the embedding follows the current one (its first 150
    lines): allow-list of three Gemini 2.x models, no fallback list when
    the call to Gemini fails. *)

From Stdlib Require Import String Ascii List Bool Arith NArith ZArith QArith Lia.
Import ListNotations.

Open Scope string_scope.
Open Scope list_scope.

(** ** JavaScript strings *)

Module JS.

Definition code (c : ascii) : N := N_of_ascii c.

Definition isUpper (c : ascii) : bool := ((65 <=? code c) && (code c <=? 90))%N.
Definition isLower (c : ascii) : bool := ((97 <=? code c) && (code c <=? 122))%N.

Definition toLowerChar (c : ascii) : ascii :=
  if isUpper c then ascii_of_N (code c + 32) else c.

Definition toUpperChar (c : ascii) : ascii :=
  if isLower c then ascii_of_N (code c - 32) else c.

(** [String.prototype.toLowerCase]. *)
Fixpoint toLowerCase (s : string) : string :=
  match s with
  | EmptyString => EmptyString
  | String c s' => String (toLowerChar c) (toLowerCase s')
  end.

(** TAB, LF, VT, FF, CR and SPACE. *)
Definition isWhiteSpace (c : ascii) : bool :=
  (((9 <=? code c) && (code c <=? 13)) || (code c =? 32))%N.

Fixpoint trimStart (s : string) : string :=
  match s with
  | EmptyString => EmptyString
  | String c s' => if isWhiteSpace c then trimStart s' else s
  end.

Fixpoint trimEnd (s : string) : string :=
  match s with
  | EmptyString => EmptyString
  | String c s' =>
      match trimEnd s' with
      | EmptyString => if isWhiteSpace c then EmptyString else String c EmptyString
      | t => String c t
      end
  end.

(** [String.prototype.trim]. *)
Definition trim (s : string) : string := trimEnd (trimStart s).

(** [s.split(sep)] for a one-character separator: never empty. *)
Fixpoint split (sep : ascii) (s : string) : list string :=
  match s with
  | EmptyString => [EmptyString]
  | String c s' =>
      if Ascii.eqb c sep then EmptyString :: split sep s'
      else match split sep s' with
           | h :: t => String c h :: t
           | [] => [String c EmptyString]
           end
  end.

(** Truthiness of a string value: only the empty string is falsy. *)
Definition truthy (s : string) : bool := negb (String.eqb s "").

(** Truthiness of a value that may be [undefined]. *)
Definition truthy_opt (o : option string) : bool :=
  match o with
  | None => false
  | Some s => truthy s
  end.

(** [Array.prototype.includes] on strings. *)
Definition includes (l : list string) (x : string) : bool :=
  existsb (String.eqb x) l.

(** [Array.prototype.join]. *)
Definition join (sep : string) (l : list string) : string := String.concat sep l.

(** [Array.prototype.slice(0, n)]. *)
Definition slice0 {A : Type} (n : nat) (l : list A) : list A := firstn n l.

(** The double quote, for template literals that contain one. *)
Definition dquote : string := String (ascii_of_N 34) EmptyString.

End JS.

(** ** Regular expressions *)

Module RegExp.

(** The fourteen syntax characters of a pattern. *)
Definition syntaxCharacters : list ascii := list_ascii_of_string "^$\.*+?()[]{}|".

Definition isSyntaxCharacter (c : ascii) : bool :=
  existsb (Ascii.eqb c) syntaxCharacters.

(** A name without metacharacters. *)
Definition literal (s : string) : bool :=
  forallb (fun c => negb (isSyntaxCharacter c)) (list_ascii_of_string s).

Inductive regex : Type :=
| Empty
| Char (c : ascii)
| AnyChar
| InputStart
| InputEnd
| Seq (r1 r2 : regex)
| Alt (r1 r2 : regex)
| Star (r : regex)
| Plus (r : regex)
| Opt (r : regex).

(** *** Parsing

    One pass over the pattern with a stack of open groups.  A frame holds
    the alternatives already closed by [|] and the terms of the current
    alternative, both most recent first.  Each term remembers whether a
    quantifier may still follow it. *)

Inductive term_kind : Type :=
| Atom         (* may take a quantifier *)
| Assertion    (* [^] and [$]: nothing to repeat *)
| Quantified   (* may take the lazy mark [?] *)
| Lazy.        (* complete *)

Record frame : Type := mkFrame {
  alternatives : list regex;
  terms : list (regex * term_kind)
}.

Definition empty_frame : frame := mkFrame [] [].

Definition push (t : regex * term_kind) (f : frame) : frame :=
  mkFrame (alternatives f) (t :: terms f).

Definition seq_of (ts : list (regex * term_kind)) : regex :=
  fold_left (fun acc t => Seq (fst t) acc) ts Empty.

Definition next_alternative (f : frame) : frame :=
  mkFrame (seq_of (terms f) :: alternatives f) [].

Definition close (f : frame) : regex :=
  fold_left (fun acc a => Alt a acc) (alternatives f) (seq_of (terms f)).

Definition apply_quantifier (q : ascii) (r : regex) : regex :=
  if Ascii.eqb q "*" then Star r
  else if Ascii.eqb q "+" then Plus r
  else Opt r.

(** [None]: nothing to repeat. *)
Definition quantify (q : ascii) (f : frame) : option frame :=
  match terms f with
  | (r, Atom) :: ts =>
      Some (mkFrame (alternatives f) ((apply_quantifier q r, Quantified) :: ts))
  | (r, Quantified) :: ts =>
      if Ascii.eqb q "?" then Some (mkFrame (alternatives f) ((r, Lazy) :: ts))
      else None
  | _ => None
  end.

(** [None] is the [SyntaxError] of the constructor. *)
Fixpoint parse (p : list ascii) (cur : frame) (stack : list frame) : option regex :=
  match p with
  | [] =>
      match stack with
      | [] => Some (close cur)
      | _ :: _ => None
      end
  | c :: p' =>
      if Ascii.eqb c "(" then parse p' empty_frame (cur :: stack)
      else if Ascii.eqb c ")" then
        match stack with
        | [] => None
        | f :: stack' => parse p' (push (close cur, Atom) f) stack'
        end
      else if Ascii.eqb c "|" then parse p' (next_alternative cur) stack
      else if Ascii.eqb c "*" || Ascii.eqb c "+" || Ascii.eqb c "?" then
        match quantify c cur with
        | None => None
        | Some cur' => parse p' cur' stack
        end
      else if Ascii.eqb c "^" then parse p' (push (InputStart, Assertion) cur) stack
      else if Ascii.eqb c "$" then parse p' (push (InputEnd, Assertion) cur) stack
      else if Ascii.eqb c "." then parse p' (push (AnyChar, Atom) cur) stack
      else parse p' (push (Char c, Atom) cur) stack
  end.

(** The patterns the engine above covers: no backslash, bracket or brace,
    and no group that opens with [(?]. *)
Fixpoint in_fragment (p : list ascii) : bool :=
  match p with
  | [] => true
  | c :: p' =>
      if existsb (Ascii.eqb c) (list_ascii_of_string "\[]{}") then false
      else if Ascii.eqb c "(" then
        match p' with
        | d :: _ => if Ascii.eqb d "?" then false else in_fragment p'
        | [] => in_fragment p'
        end
      else in_fragment p'
  end.

(** *** Matching

    A position is the number of characters consumed and the rest of the
    input.  [run r p] lists the positions at which a match of [r] that
    starts at [p] can end.  Greedy and lazy quantifiers differ only in the
    order of that list, which [test] does not look at. *)

Definition position : Type := (nat * list ascii)%type.

(** Canonicalize of the [i] flag. *)
Definition canonicalize (c : ascii) : ascii := JS.toUpperChar c.

Definition isLineTerminator (c : ascii) : bool :=
  ((JS.code c =? 10) || (JS.code c =? 13))%N.

Section Repeat.
Variable step : position -> list position.

(** Iterations that consume nothing are dropped, as in RepeatMatcher. *)
Fixpoint iterate (fuel : nat) (p : position) : list position :=
  match fuel with
  | O => [p]
  | S fuel' =>
      p :: flat_map (fun q => if (fst p <? fst q)%nat then iterate fuel' q else [])
                    (step p)
  end.
End Repeat.

Fixpoint run (r : regex) (p : position) : list position :=
  match r with
  | Empty => [p]
  | Char c =>
      match snd p with
      | x :: rest =>
          if Ascii.eqb (canonicalize c) (canonicalize x) then [(S (fst p), rest)]
          else []
      | [] => []
      end
  | AnyChar =>
      match snd p with
      | x :: rest => if isLineTerminator x then [] else [(S (fst p), rest)]
      | [] => []
      end
  | InputStart => if (fst p =? 0)%nat then [p] else []
  | InputEnd =>
      match snd p with
      | [] => [p]
      | _ :: _ => []
      end
  | Seq r1 r2 => flat_map (run r2) (run r1 p)
  | Alt r1 r2 => run r1 p ++ run r2 p
  | Star r' => iterate (run r') (S (length (snd p))) p
  | Plus r' => flat_map (fun q => iterate (run r') (S (length (snd q))) q) (run r' p)
  | Opt r' => p :: run r' p
  end.

(** Every start position of the input, first to last. *)
Fixpoint starts (k : nat) (s : list ascii) : list position :=
  (k, s) :: match s with
            | [] => []
            | _ :: s' => starts (S k) s'
            end.

Definition nonempty {A : Type} (l : list A) : bool :=
  match l with
  | [] => false
  | _ :: _ => true
  end.

(** [re.test(s)]: is there a match starting anywhere in [s]? *)
Definition matches (r : regex) (s : string) : bool :=
  existsb (fun p => nonempty (run r p)) (starts 0 (list_ascii_of_string s)).

(** What [^name$] parses to when [name] has no metacharacter. *)
Definition anchored_literal (cs : list ascii) : regex :=
  Seq InputStart (fold_right (fun c r => Seq (Char c) r) (Seq InputEnd Empty) cs).

(** A constructed [RegExp] with the [i] flag. *)
Record t : Type := mkRegExp {
  source : string;
  test : string -> bool
}.

(** [new RegExp(pattern, 'i')].  [host] answers for the patterns outside
    the fragment; [None] is a thrown [SyntaxError]. *)
Definition construct (host : string -> option (string -> bool)) (pattern : string)
  : option t :=
  if in_fragment (list_ascii_of_string pattern) then
    match parse (list_ascii_of_string pattern) empty_frame [] with
    | Some r => Some (mkRegExp pattern (matches r))
    | None => None
    end
  else
    match host pattern with
    | Some f => Some (mkRegExp pattern f)
    | None => None
    end.

End RegExp.

(** ** The Medicine model ([models/medicine.js]) *)

Record medicine : Type := mkMedicine {
  tabletName : string;
  quantityInStock : Z;
  price : Q;
  dosageFrequency : option string;
  usageInstructions : option string;
  foodWarnings : option string;
  createdAt : Z
}.

(** A document under construction: what [new Medicine({...})] holds before
    validation.  [None] is [undefined]. *)
Record draft : Type := mkDraft {
  d_tabletName : option string;
  d_quantityInStock : option Z;
  d_price : option Q;
  d_dosageFrequency : option string;
  d_usageInstructions : option string;
  d_foodWarnings : option string;
  d_createdAt : Z
}.

(** The schema's validators: [tabletName] required, [quantityInStock]
    required with [min: 0], [price] required with [min: 0]. *)
Definition validate (d : draft) : option medicine :=
  match d_tabletName d, d_quantityInStock d, d_price d with
  | Some n, Some q, Some p =>
      if JS.truthy n && (0 <=? q)%Z && Qle_bool 0 p
      then Some (mkMedicine n q p (d_dosageFrequency d) (d_usageInstructions d)
                            (d_foodWarnings d) (d_createdAt d))
      else None
  | _, _, _ => None
  end.

(** ** Effects

    A handler runs against the collection and leaves a log of the calls it
    made to its collaborators.  An exception keeps the state reached so
    far. *)

Inductive call : Type :=
| FindOneByName (name : string)
| FindOneInStock (pattern : string)
| FindAll
| Save (doc : medicine)
| FuseSearch (query : string)
| GenerateContent (model prompt : string).

Inductive exn : Type :=
| SyntaxError
| ValidationError
| DuplicateKey.     (* err.code === 11000 *)

Record world : Type := mkWorld {
  collection : list medicine;
  calls : list call
}.

Inductive result (A : Type) : Type :=
| Ok (a : A)
| Throw (e : exn).
Arguments Ok {A} a.
Arguments Throw {A} e.

Definition M (A : Type) : Type := world -> result A * world.

Definition ret {A : Type} (a : A) : M A := fun w => (Ok a, w).

Definition bind {A B : Type} (m : M A) (k : A -> M B) : M B :=
  fun w =>
    match m w with
    | (Ok a, w') => k a w'
    | (Throw e, w') => (Throw e, w')
    end.

Definition throw {A : Type} (e : exn) : M A := fun w => (Throw e, w).

Definition try_catch {A : Type} (m : M A) (handler : exn -> M A) : M A :=
  fun w =>
    match m w with
    | (Ok a, w') => (Ok a, w')
    | (Throw e, w') => handler e w'
    end.

Definition logged (c : call) (w : world) : world :=
  mkWorld (collection w) (calls w ++ [c]).

Declare Scope monad_scope.
Delimit Scope monad_scope with monad.
Notation "x <- m ;; k" := (bind m (fun x => k))
  (at level 61, m at next level, right associativity) : monad_scope.
Open Scope monad_scope.

(** ** The collaborators that stay parameters *)

Inductive gemini_result : Type :=
| Text (rawResponse : string)      (* result.response.text() *)
| ApiError (message : string).     (* a rejected call or a throwing text() *)

Record environment : Type := mkEnvironment {
  (* the RegExp constructor outside the modelled fragment *)
  host_regexp : string -> option (string -> bool);
  (* Fuse's Bitap search at threshold 0.3 on a lower-cased pattern and text
     that differ: the score when isMatch *)
  bitap : string -> string -> option Q;
  (* Fuse's computeScore: the Bitap score weighted by the norm of the text *)
  computeScore : Q -> string -> Q;
  (* geminiModel.generateContent(prompt) for the chosen model *)
  generateContent : string -> string -> gemini_result
}.

(** ** Fuse.js with [{ keys: ['tabletName'], threshold: 0.3 }] *)

Module Fuse.

Record match_result : Type := mkResult {
  item : medicine;
  refIndex : nat;
  score : Q
}.

Section Search.
Variable E : environment.

Definition isBlank (s : string) : bool := String.eqb (JS.trim s) "".

Fixpoint numbered (i : nat) (docs : list medicine) : list (nat * medicine) :=
  match docs with
  | [] => []
  | d :: docs' => (i, d) :: numbered (S i) docs'
  end.

(** The index: one record per document whose key value is not blank. *)
Definition records (docs : list medicine) : list (nat * medicine) :=
  filter (fun r => negb (isBlank (tabletName (snd r)))) (numbered 0 docs).

(** [BitapSearch.searchIn]: equal strings match with score 0. *)
Definition searchIn (pattern text : string) : option Q :=
  let pattern := JS.toLowerCase pattern in
  let text := JS.toLowerCase text in
  if String.eqb pattern text then Some 0%Q else bitap E pattern text.

Definition searchObjectList (pattern : string) (docs : list medicine)
  : list match_result :=
  flat_map (fun r =>
              match searchIn pattern (tabletName (snd r)) with
              | Some s => [mkResult (snd r) (fst r)
                                    (computeScore E s (tabletName (snd r)))]
              | None => []
              end)
           (records docs).

(** The default [sortFn]: by score, then by index. *)
Definition before (a b : match_result) : bool :=
  match (score a ?= score b)%Q with
  | Lt => true
  | Eq => (refIndex a <? refIndex b)%nat
  | Gt => false
  end.

Fixpoint insert (x : match_result) (l : list match_result) : list match_result :=
  match l with
  | [] => [x]
  | y :: l' => if before y x then y :: insert x l' else x :: l
  end.

Fixpoint sort (l : list match_result) : list match_result :=
  match l with
  | [] => []
  | x :: l' => insert x (sort l')
  end.

(** [new Fuse(docs, options).search(pattern)]. *)
Definition search (docs : list medicine) (pattern : string) : list match_result :=
  sort (searchObjectList pattern docs).

End Search.
End Fuse.

(** ** Responses *)

Inductive body : Type :=
| available_locally (message : string) (data : medicine)
| not_found_but_similar_exist (message : string) (suggestions : list string)
| alternative_available_locally (message : string) (data : medicine)
                                (disclaimer : string)
| not_available_anywhere (message : string) (geminiSuggestions : list string)
                         (disclaimer : string)
| error_body (error : string) (details : option string)
| msg_body (msg : string) (doc : option medicine)
| text_body (text : string).

Record response : Type := mkResponse {
  status : nat;
  payload : body
}.

(** [res.json(b)] answers 200; [res.status(n).json(b)] answers [n]. *)
Definition json (b : body) : response := mkResponse 200 b.
Definition status_json (n : nat) (b : body) : response := mkResponse n b.
Definition status_send (n : nat) (s : string) : response := mkResponse n (text_body s).

(** The four labels a resolution can carry. *)
Definition is_resolution (b : body) : bool :=
  match b with
  | available_locally _ _ | not_found_but_similar_exist _ _
  | alternative_available_locally _ _ _ | not_available_anywhere _ _ _ => true
  | _ => false
  end.

(** ** The routes ([routes/medicineRoutes.js]) *)

Definition allowedGeminiModels : list string :=
  [ "gemini-2.5-flash-lite-preview-06-17";
    "gemini-2.0-flash-exp";
    "gemini-2.0-pro-exp" ].

Definition defaultGeminiModel : string := "gemini-2.5-flash-lite-preview-06-17".

Definition newline : string := String (ascii_of_N 10) EmptyString.

Definition prompt_for (name : string) : string :=
  "What are some generic or therapeutic alternatives for " ++ JS.dquote ++ name
  ++ JS.dquote ++ "? " ++ newline
  ++ "      List up to 3 medicine names only, separated by commas. " ++ newline
  ++ "      If none are known, just respond with " ++ JS.dquote ++ "None"
  ++ JS.dquote ++ ".".

Definition alternative_disclaimer : string :=
  "Suggestions are informational only; consult a healthcare professional.".

Definition unavailable_disclaimer : string :=
  "This information is for educational use; verify with a licensed pharmacist.".

(** The request of [GET /check]: [req.query.name] and [req.query.model]. *)
Record check_query : Type := mkQuery {
  q_name : option string;
  q_model : option string
}.

(** The request of [POST /]: the fields read from [req.body]. *)
Record add_request : Type := mkAdd {
  b_tabletName : option string;
  b_quantityInStock : option Z;
  b_price : option Q;
  b_dosageFrequency : option string;
  b_usageInstructions : option string;
  b_foodWarnings : option string
}.

Definition value (o : option string) : string :=
  match o with
  | Some s => s
  | None => ""
  end.

Definition is_undefined {A : Type} (o : option A) : bool :=
  match o with
  | None => true
  | Some _ => false
  end.

(** The reply of the model, parsed: lines 106-110. *)
Definition parse_alternatives (rawResponse : string) : list string :=
  if JS.truthy rawResponse && negb (String.eqb (JS.toLowerCase rawResponse) "none")
  then filter JS.truthy (map JS.trim (JS.split "," rawResponse))
  else [].

(** [model || "gemini-2.5-flash-lite-preview-06-17"]. *)
Definition modelToUse (model : option string) : string :=
  if JS.truthy_opt model then value model else defaultGeminiModel.

Section Routes.
Variable E : environment.

(** [new RegExp(pattern, 'i')]. *)
Definition new_RegExp (pattern : string) : M RegExp.t :=
  match RegExp.construct (host_regexp E) pattern with
  | Some re => ret re
  | None => throw SyntaxError
  end.

(** The filter [{ tabletName: re, quantityInStock: { $gt: 0 } }]. *)
Definition in_stock (re : RegExp.t) (m : medicine) : bool :=
  RegExp.test re (tabletName m) && (0 <? quantityInStock m)%Z.

(** [Medicine.findOne({ tabletName: re, quantityInStock: { $gt: 0 } })]. *)
Definition findOne_in_stock (re : RegExp.t) : M (option medicine) :=
  fun w => (Ok (find (in_stock re) (collection w)),
            logged (FindOneInStock (RegExp.source re)) w).

(** [Medicine.findOne({ tabletName })]: the value goes through the schema's
    [trim] setter before it is compared. *)
Definition findOne_by_name (name : string) : M (option medicine) :=
  fun w => (Ok (find (fun m => String.eqb (tabletName m) (JS.trim name)) (collection w)),
            logged (FindOneByName name) w).

(** [Medicine.find({})]. *)
Definition find_all : M (list medicine) :=
  fun w => (Ok (collection w), logged FindAll w).

(** [new Medicine({...})]: string fields are trimmed, [createdAt] defaults
    to the current time. *)
Definition new_Medicine (now : Z) (b : add_request) : draft :=
  mkDraft (option_map JS.trim (b_tabletName b))
          (b_quantityInStock b)
          (b_price b)
          (option_map JS.trim (b_dosageFrequency b))
          (option_map JS.trim (b_usageInstructions b))
          (option_map JS.trim (b_foodWarnings b))
          now.

(** [doc.save()]: validation, then the insert under the unique index on
    [tabletName]. *)
Definition save (d : draft) : M medicine :=
  fun w =>
    match validate d with
    | None => (Throw ValidationError, w)
    | Some doc =>
        if existsb (fun m => String.eqb (tabletName m) (tabletName doc)) (collection w)
        then (Throw DuplicateKey, logged (Save doc) w)
        else (Ok doc, mkWorld (collection w ++ [doc]) (calls w ++ [Save doc]))
    end.

(** [new Fuse(all, {...}).search(name)]. *)
Definition fuse_search (all : list medicine) (name : string)
  : M (list Fuse.match_result) :=
  fun w => (Ok (Fuse.search E all name), logged (FuseSearch name) w).

(** [await geminiModel.generateContent(prompt)] and [result.response.text()]. *)
Definition generate (model prompt : string) : M gemini_result :=
  fun w => (Ok (generateContent E model prompt),
            logged (GenerateContent model prompt) w).

(** [router.post('/')]. *)
Definition add (now : Z) (b : add_request) : M response :=
  let tabletName := b_tabletName b in
  let quantityInStock := b_quantityInStock b in
  try_catch
    (if negb (JS.truthy_opt tabletName) || is_undefined quantityInStock then
       ret (status_json 400 (msg_body "Tablet name and quantity are required." None))
     else
       existing <- findOne_by_name (value tabletName) ;;
       match existing with
       | Some _ =>
           ret (status_json 400
                  (msg_body ("Medicine '" ++ value tabletName ++ "' already exists.") None))
       | None =>
           newMed <- save (new_Medicine now b) ;;
           ret (status_json 201
                  (msg_body ("'" ++ value tabletName ++ "' added successfully.")
                            (Some newMed)))
       end)
    (fun err =>
       match err with
       | DuplicateKey =>
           ret (status_json 400
                  (msg_body ("Medicine '" ++ value (b_tabletName b) ++ "' already exists.")
                            None))
       | _ => ret (status_send 500 "Server Error")
       end).

(** The loop of step 4 over [top3] (lines 123-144). *)
Fixpoint check_alternatives (name : string) (top3 rest : list string) : M response :=
  match rest with
  | [] =>
      ret (json (not_available_anywhere
                   ("'" ++ name ++ "' is not in local stock. Gemini suggestions were checked but none are in stock.")
                   top3
                   unavailable_disclaimer))
  | alt :: rest' =>
      re <- new_RegExp ("^" ++ alt ++ "$") ;;
      inStock <- findOne_in_stock re ;;
      match inStock with
      | Some m =>
          ret (json (alternative_available_locally
                       ("'" ++ name ++ "' is unavailable, but Gemini suggested an alternative that is in stock.")
                       m
                       alternative_disclaimer))
      | None => check_alternatives name top3 rest'
      end
  end.

(** [router.get('/check')]. *)
Definition check (req : check_query) : M response :=
  let model := q_model req in
  if negb (JS.truthy_opt (q_name req)) then
    ret (status_json 400 (error_body "Medicine name query parameter is required." None))
  else
    let name := value (q_name req) in
    try_catch
      ((* 1: exact local match *)
       re <- new_RegExp ("^" ++ name ++ "$") ;;
       localMedicine <- findOne_in_stock re ;;
       match localMedicine with
       | Some m =>
           ret (json (available_locally
                        ("'" ++ name ++ "' is available in your inventory.") m))
       | None =>
           (* 2: fuzzy match in the local collection *)
           all <- find_all ;;
           fuzzyResults <- fuse_search all name ;;
           let topFuzzy :=
             map (fun r => tabletName (Fuse.item r)) (JS.slice0 3 fuzzyResults) in
           if (0 <? length topFuzzy)%nat then
             ret (json (not_found_but_similar_exist
                          ("'" ++ name ++ "' not found, but here are some close matches in your stock:")
                          topFuzzy))
           else
             (* 3: ask Gemini *)
             let modelToUse := modelToUse model in
             if negb (JS.includes allowedGeminiModels modelToUse) then
               ret (status_json 400
                      (error_body ("Invalid Gemini model. Allowed: "
                                   ++ JS.join ", " allowedGeminiModels) None))
             else
               reply <- generate modelToUse (prompt_for name) ;;
               match reply with
               | ApiError message =>
                   ret (status_json 502
                          (error_body "Error communicating with Google Gemini API."
                                      (Some message)))
               | Text rawResponse =>
                   let top3 := JS.slice0 3 (parse_alternatives rawResponse) in
                   (* 4 and 5 *)
                   check_alternatives name top3 top3
               end
       end)
      (fun err => ret (status_json 500 (error_body "Internal server error" None))).

End Routes.

(** Running a handler on a collection, with an empty log. *)
Definition start (db : list medicine) : world := mkWorld db [].

Definition respond (m : M response) (db : list medicine) : option response :=
  match fst (m (start db)) with
  | Ok r => Some r
  | Throw _ => None
  end.

Definition stored (m : M response) (db : list medicine) : list medicine :=
  collection (snd (m (start db))).

Definition trace (m : M response) (db : list medicine) : list call :=
  calls (snd (m (start db))).

(** ** Stubs for the parameters *)

(** A Gemini stub with a fixed answer. *)
Definition stub (answer : gemini_result) : environment :=
  mkEnvironment (fun _ => None) (fun _ _ => None) (fun s _ => s) (fun _ _ => answer).

Definition med (name : string) (stock : Z) : medicine :=
  mkMedicine name stock 1 None None None 0.


(** The lookup of step 1, which step 4 repeats for every candidate:
    [Medicine.findOne({ tabletName: new RegExp(`^${name}$`, 'i'),
    quantityInStock: { $gt: 0 } })]. *)
Definition exact_in_stock (E : environment) (name : string) (db : list medicine)
  : result (option medicine) :=
  fst ((re <- new_RegExp E ("^" ++ name ++ "$") ;; findOne_in_stock re) (start db)).

Definition lookup_call (name : string) : call := FindOneInStock ("^" ++ name ++ "$").

(** The calls of a log that went to Gemini. *)
Definition is_generate (c : call) : bool :=
  match c with
  | GenerateContent _ _ => true
  | _ => false
  end.

Definition suggester_calls (log : list call) : nat := length (filter is_generate log).

(** Steps 1 and 2 miss and the model passes the allow-list, so that the
    handler gets to call Gemini. *)
Definition reaches_gemini (E : environment) (name : string) (model : option string)
           (db : list medicine) : Prop :=
  JS.truthy name = true /\
  exact_in_stock E name db = Ok None /\
  Fuse.search E db name = [] /\
  JS.includes allowedGeminiModels (modelToUse model) = true.

(** The calls made up to and including the one to Gemini. *)
Definition calls_up_to_gemini (name : string) (model : option string) : list call :=
  [ lookup_call name; FindAll; FuseSearch name;
    GenerateContent (modelToUse model) (prompt_for name) ].

(** Equal up to letter case. *)
Definition same_ignoring_case (a b : string) : Prop :=
  JS.toLowerCase a = JS.toLowerCase b.

(** ** The responses of [check], by name *)

Definition unavailable (name : string) (top3 : list string) : response :=
  json (not_available_anywhere
          ("'" ++ name ++ "' is not in local stock. Gemini suggestions were checked but none are in stock.")
          top3 unavailable_disclaimer).

Definition alternative (name : string) (m : medicine) : response :=
  json (alternative_available_locally
          ("'" ++ name ++ "' is unavailable, but Gemini suggested an alternative that is in stock.")
          m alternative_disclaimer).

Definition internal_error : response :=
  status_json 500 (error_body "Internal server error" None).

Definition name_required : response :=
  status_json 400 (error_body "Medicine name query parameter is required." None).

Definition invalid_model : response :=
  status_json 400 (error_body ("Invalid Gemini model. Allowed: "
                               ++ JS.join ", " allowedGeminiModels) None).

Definition gemini_unreachable (message : string) : response :=
  status_json 502 (error_body "Error communicating with Google Gemini API." (Some message)).

Definition available (name : string) (m : medicine) : response :=
  json (available_locally ("'" ++ name ++ "' is available in your inventory.") m).

Definition similar (name : string) (names : list string) : response :=
  json (not_found_but_similar_exist
          ("'" ++ name ++ "' not found, but here are some close matches in your stock:")
          names).

Definition topFuzzy (E : environment) (db : list medicine) (name : string) : list string :=
  map (fun r => tabletName (Fuse.item r)) (JS.slice0 3 (Fuse.search E db name)).

(** ** The responses of [add], by name *)

Definition fields_required : response :=
  status_json 400 (msg_body "Tablet name and quantity are required." None).

Definition already_exists (name : string) : response :=
  status_json 400 (msg_body ("Medicine '" ++ name ++ "' already exists.") None).

Definition added (name : string) (doc : medicine) : response :=
  status_json 201 (msg_body ("'" ++ name ++ "' added successfully.") (Some doc)).

Definition server_error : response := status_send 500 "Server Error".

(** ** Well-formed names, documents and requests *)

(** A string that [trim] leaves as it is. *)
Definition trimmed (s : string) : Prop := JS.trim s = s.

Definition trimmed_opt (o : option string) : Prop :=
  match o with
  | Some s => trimmed s
  | None => True
  end.

(** What the schema of [models/medicine.js] lets into the collection: a
    non-empty trimmed name, a quantity and a price that are not negative,
    trimmed texts. *)
Definition valid_doc (m : medicine) : Prop :=
  JS.truthy (tabletName m) = true /\
  trimmed (tabletName m) /\
  (0 <= quantityInStock m)%Z /\
  (0 <= price m)%Q /\
  trimmed_opt (dosageFrequency m) /\
  trimmed_opt (usageInstructions m) /\
  trimmed_opt (foodWarnings m).

Definition comma_free (s : string) : Prop := ~ In ","%char (list_ascii_of_string s).

(** A name as [parse_alternatives] delivers it. *)
Definition candidate (c : string) : Prop :=
  JS.truthy c = true /\ trimmed c /\ comma_free c.

(** The names of a collection, lower-cased. *)
Definition folded_names (db : list medicine) : list string :=
  map (fun m => JS.toLowerCase (tabletName m)) db.

(** The calls of a log that are in-stock lookups, and those that write. *)
Definition is_lookup (c : call) : bool :=
  match c with
  | FindOneInStock _ => true
  | _ => false
  end.

Definition is_write (c : call) : bool :=
  match c with
  | Save _ => true
  | _ => false
  end.

(** The quantifier characters of a pattern. *)
Definition is_quantifier (c : ascii) : bool :=
  Ascii.eqb c "*" || Ascii.eqb c "+" || Ascii.eqb c "?".

(** ** The previous revision of [router.get('/check')]

    Lines 202-325 of the router file: the reply of Gemini is trimmed before
    it is parsed, and a failure whose message mentions 429 is absorbed by a
    fixed list of candidates.  The default model, the allow-list, the
    prompt and the texts of the answers differ from the current revision;
    the alternative answer has no separate disclaimer field and the 500
    answer carries the message of the exception, [message_of] below. *)

Module Revision2.

Fixpoint startsWith (s prefix : string) : bool :=
  match prefix, s with
  | EmptyString, _ => true
  | String p prefix', String c s' => Ascii.eqb c p && startsWith s' prefix'
  | String _ _, EmptyString => false
  end.

(** [String.prototype.includes]. *)
Fixpoint includes (s sub : string) : bool :=
  startsWith s sub ||
  match s with
  | EmptyString => false
  | String _ s' => includes s' sub
  end.

Inductive body : Type :=
| available_locally (message : string) (data : medicine)
| not_found_but_similar_exist (message : string) (suggestions : list string)
| alternative_available_locally (message : string) (data : medicine)
| not_available_locally_and_no_stocked_alternatives
    (message : string) (geminiSuggestions : list string) (disclaimer : string)
| error_body (error : string) (details : option string).

Record response : Type := mkResponse {
  status : nat;
  payload : body
}.

Definition json (b : body) : response := mkResponse 200 b.
Definition status_json (n : nat) (b : body) : response := mkResponse n b.

Definition allowedGeminiModels : list string :=
  [ "gemini-2.5-flash-lite-preview-06-17"; "gemini-1.5-pro"; "gemini-1.5-flash" ].

Definition defaultGeminiModel : string := "gemini-1.5-flash".

(** [model || "gemini-1.5-flash"]. *)
Definition modelToUse (model : option string) : string :=
  if JS.truthy_opt model then value model else defaultGeminiModel.

(** The list used when the quota is exceeded. *)
Definition fallback : list string := [ "Paracetamol"; "Ibuprofen"; "Diclofenac" ].

Definition prompt_for (name : string) : string :=
  "List up to 3 common therapeutic or generic alternatives for " ++ JS.dquote ++ name
  ++ JS.dquote ++ ". " ++ newline
  ++ "Only provide names separated by commas. If none, say " ++ JS.dquote ++ "None"
  ++ JS.dquote ++ ".".

(** Lines 270-278: [text().trim()], then the parse of the current revision. *)
Definition parse_reply (text : string) : list string :=
  let rawGeminiResponse := JS.trim text in
  if JS.truthy rawGeminiResponse
     && negb (String.eqb (JS.toLowerCase rawGeminiResponse) "none")
  then filter JS.truthy (map JS.trim (JS.split "," rawGeminiResponse))
  else [].

Definition in_stock_message (name altName : string) : string :=
  "'" ++ name ++ "' not found, but Gemini suggested '" ++ altName
  ++ "' which is in stock. " ++ newline
  ++ "⚠️ *Disclaimer: For informational purposes only. Consult a healthcare professional before substituting.*".

Definition none_in_stock_message (name : string) : string :=
  "'" ++ name ++ "' not found. Checked Gemini alternatives — none are in stock.".

Definition disclaimer_text : string :=
  "⚠️ For informational purposes only. Please verify with a healthcare professional.".

Section Routes.
Variable E : environment.
Variable message_of : exn -> string.      (* err.message *)

(** Step 4, lines 297-319. *)
Fixpoint check_alternatives (name : string) (top3GeminiAlternatives rest : list string)
  : M response :=
  match rest with
  | [] =>
      ret (json (not_available_locally_and_no_stocked_alternatives
                   (none_in_stock_message name) top3GeminiAlternatives disclaimer_text))
  | altName :: rest' =>
      re <- new_RegExp E ("^" ++ altName ++ "$") ;;
      alternativeInStock <- findOne_in_stock re ;;
      match alternativeInStock with
      | Some m =>
          ret (json (alternative_available_locally (in_stock_message name altName) m))
      | None => check_alternatives name top3GeminiAlternatives rest'
      end
  end.

(** [router.get('/check')], lines 202-325. *)
Definition check (req : check_query) : M response :=
  let model := q_model req in
  if negb (JS.truthy_opt (q_name req)) then
    ret (status_json 400 (error_body "Medicine name query parameter is required." None))
  else
    let name := value (q_name req) in
    try_catch
      (re <- new_RegExp E ("^" ++ name ++ "$") ;;
       localMedicine <- findOne_in_stock re ;;
       match localMedicine with
       | Some m =>
           ret (json (available_locally
                        ("'" ++ name ++ "' is available in your inventory.") m))
       | None =>
           allMedicines <- find_all ;;
           fuzzyResults <- fuse_search E allMedicines name ;;
           let topFuzzy :=
             map (fun r => tabletName (Fuse.item r)) (JS.slice0 3 fuzzyResults) in
           if (0 <? length topFuzzy)%nat then
             ret (json (not_found_but_similar_exist
                          ("'" ++ name ++ "' not found, but here are some close matches in your stock:")
                          topFuzzy))
           else
             let modelToUse := modelToUse model in
             if negb (JS.includes allowedGeminiModels modelToUse) then
               ret (status_json 400
                      (error_body ("Invalid Gemini model. Allowed: "
                                   ++ JS.join ", " allowedGeminiModels) None))
             else
               reply <- generate E modelToUse (prompt_for name) ;;
               match reply with
               | Text text =>
                   let top3GeminiAlternatives := JS.slice0 3 (parse_reply text) in
                   check_alternatives name top3GeminiAlternatives top3GeminiAlternatives
               | ApiError message =>
                   if includes message "429" then
                     let top3GeminiAlternatives := JS.slice0 3 fallback in
                     check_alternatives name top3GeminiAlternatives top3GeminiAlternatives
                   else
                     ret (status_json 502
                            (error_body "Error communicating with Google Gemini API."
                                        (Some message)))
               end
       end)
      (fun err => ret (status_json 500 (error_body "Server error" (Some (message_of err))))).

End Routes.

Definition respond (m : M response) (db : list medicine) : option response :=
  match fst (m (start db)) with
  | Ok r => Some r
  | Throw _ => None
  end.

Definition stored (m : M response) (db : list medicine) : list medicine :=
  collection (snd (m (start db))).

Definition trace (m : M response) (db : list medicine) : list call :=
  calls (snd (m (start db))).

(** Steps 1 and 2 miss and the model passes this revision's allow-list. *)
Definition reaches_gemini (E : environment) (name : string) (model : option string)
           (db : list medicine) : Prop :=
  JS.truthy name = true /\
  exact_in_stock E name db = Ok None /\
  Fuse.search E db name = [] /\
  JS.includes allowedGeminiModels (modelToUse model) = true.

Definition calls_up_to_gemini (name : string) (model : option string) : list call :=
  [ lookup_call name; FindAll; FuseSearch name;
    GenerateContent (modelToUse model) (prompt_for name) ].

Definition in_stock_answer (name altName : string) (m : medicine) : response :=
  json (alternative_available_locally (in_stock_message name altName) m).

Definition none_in_stock_answer (name : string) (suggestions : list string) : response :=
  json (not_available_locally_and_no_stocked_alternatives
          (none_in_stock_message name) suggestions disclaimer_text).

Definition gemini_unreachable (message : string) : response :=
  status_json 502 (error_body "Error communicating with Google Gemini API." (Some message)).

Definition name_required : response :=
  status_json 400 (error_body "Medicine name query parameter is required." None).

Definition available (name : string) (m : medicine) : response :=
  json (available_locally ("'" ++ name ++ "' is available in your inventory.") m).

Definition similar (name : string) (names : list string) : response :=
  json (not_found_but_similar_exist
          ("'" ++ name ++ "' not found, but here are some close matches in your stock:")
          names).

Definition invalid_model : response :=
  status_json 400 (error_body ("Invalid Gemini model. Allowed: "
                               ++ JS.join ", " allowedGeminiModels) None).

Definition server_error (message_of : exn -> string) (e : exn) : response :=
  status_json 500 (error_body "Server error" (Some (message_of e))).

(** A rendering of exceptions for the examples. *)
Definition plain_message (e : exn) : string :=
  match e with
  | SyntaxError => "Invalid regular expression"
  | ValidationError => "Medicine validation failed"
  | DuplicateKey => "E11000 duplicate key error"
  end.

End Revision2.

(** The characters of a pattern that are not syntax characters compare
    unequal to each of them; [lem] is that fact for the character at hand. *)
Ltac plain_character lem :=
  repeat match goal with
         | |- context [Ascii.eqb _ ?d] => rewrite (lem d) by (simpl; tauto)
         end.

(** * Properties *)

(** ** Strings *)

Lemma lower_upper_char (c : ascii) : JS.toLowerChar (JS.toUpperChar c) = JS.toLowerChar c.
Proof. destruct c as [[] [] [] [] [] [] [] []]; reflexivity. Qed.

Lemma upper_lower_char (c : ascii) : JS.toUpperChar (JS.toLowerChar c) = JS.toUpperChar c.
Proof. destruct c as [[] [] [] [] [] [] [] []]; reflexivity. Qed.

Lemma canonicalize_eq_iff (a b : ascii) :
  RegExp.canonicalize a = RegExp.canonicalize b <-> JS.toLowerChar a = JS.toLowerChar b.
Proof.
  unfold RegExp.canonicalize; split; intro H.
  - rewrite <- (lower_upper_char a), <- (lower_upper_char b); now rewrite H.
  - rewrite <- (upper_lower_char a), <- (upper_lower_char b); now rewrite H.
Qed.

Lemma toLowerCase_chars (s : string) :
  list_ascii_of_string (JS.toLowerCase s) = map JS.toLowerChar (list_ascii_of_string s).
Proof. induction s as [|c s IH]; simpl; [reflexivity | now rewrite IH]. Qed.

Lemma same_ignoring_case_chars (a b : string) :
  same_ignoring_case a b <->
  map JS.toLowerChar (list_ascii_of_string a) = map JS.toLowerChar (list_ascii_of_string b).
Proof.
  unfold same_ignoring_case; rewrite <- !toLowerCase_chars; split; intro H.
  - now rewrite H.
  - rewrite <- (string_of_list_ascii_of_string (JS.toLowerCase a)),
            <- (string_of_list_ascii_of_string (JS.toLowerCase b)).
    now rewrite H.
Qed.

Lemma chars_app (a b : string) :
  list_ascii_of_string (a ++ b) = (list_ascii_of_string a ++ list_ascii_of_string b)%list.
Proof. induction a as [|c a IH]; simpl; [reflexivity | now rewrite IH]. Qed.

(** ** The pattern [^name$] for a name without metacharacters *)

Lemma not_syntax_character (c : ascii) :
  RegExp.isSyntaxCharacter c = false ->
  forall d, In d RegExp.syntaxCharacters -> Ascii.eqb c d = false.
Proof.
  unfold RegExp.isSyntaxCharacter; intros H d Hd.
  destruct (Ascii.eqb c d) eqn:Heq; [|reflexivity].
  assert (existsb (Ascii.eqb c) RegExp.syntaxCharacters = true) as Hex
    by (apply existsb_exists; exists d; auto).
  congruence.
Qed.

Lemma parse_literal (cs : list ascii) :
  forall rest cur stack,
    forallb (fun c => negb (RegExp.isSyntaxCharacter c)) cs = true ->
    RegExp.parse (cs ++ rest) cur stack =
    RegExp.parse rest
      (RegExp.mkFrame (RegExp.alternatives cur)
         (rev (map (fun c => (RegExp.Char c, RegExp.Atom)) cs) ++ RegExp.terms cur))
      stack.
Proof.
  induction cs as [|c cs IH]; intros rest cur stack H.
  - destruct cur; reflexivity.
  - simpl in H. apply andb_prop in H as [Hc Hcs].
    apply negb_true_iff in Hc.
    cbn [app RegExp.parse]. plain_character (not_syntax_character c Hc). cbn [orb].
    rewrite IH by assumption. cbn [RegExp.push RegExp.alternatives RegExp.terms map rev].
    now rewrite <- app_assoc.
Qed.

Lemma in_fragment_literal (cs : list ascii) :
  forall rest,
    forallb (fun c => negb (RegExp.isSyntaxCharacter c)) cs = true ->
    RegExp.in_fragment (cs ++ rest) = RegExp.in_fragment rest.
Proof.
  induction cs as [|c cs IH]; intros rest H; [reflexivity|].
  simpl in H. apply andb_prop in H as [Hc Hcs].
  apply negb_true_iff in Hc.
  cbn [app RegExp.in_fragment list_ascii_of_string existsb].
  plain_character (not_syntax_character c Hc). cbn [orb]. now apply IH.
Qed.

Lemma seq_of_literal (cs : list ascii) (tail : RegExp.regex) :
  fold_left (fun acc t => RegExp.Seq (fst t) acc)
            (rev (map (fun c => (RegExp.Char c, RegExp.Atom)) cs)) tail =
  fold_right (fun c r => RegExp.Seq (RegExp.Char c) r) tail cs.
Proof.
  induction cs as [|c cs IH]; [reflexivity|].
  cbn [map rev]. rewrite fold_left_app. cbn [fold_left fst fold_right].
  now rewrite IH.
Qed.

Lemma parse_anchored_literal (name : string) :
  RegExp.literal name = true ->
  RegExp.parse (list_ascii_of_string ("^" ++ name ++ "$")) RegExp.empty_frame [] =
  Some (RegExp.anchored_literal (list_ascii_of_string name)).
Proof.
  intro H. unfold RegExp.literal in H.
  rewrite !chars_app.
  change (list_ascii_of_string "^") with ["^"%char].
  change (list_ascii_of_string "$") with ["$"%char].
  cbn [app RegExp.parse Ascii.eqb Bool.eqb orb].
  change (RegExp.parse (list_ascii_of_string name ++ ["$"%char])
            (RegExp.push (RegExp.InputStart, RegExp.Assertion) RegExp.empty_frame) [] =
          Some (RegExp.anchored_literal (list_ascii_of_string name))).
  rewrite parse_literal by assumption.
  cbn. unfold RegExp.close, RegExp.seq_of. cbn [RegExp.alternatives RegExp.terms fold_left].
  change ((RegExp.InputEnd, RegExp.Assertion)
            :: (rev (map (fun c => (RegExp.Char c, RegExp.Atom)) (list_ascii_of_string name))
                ++ [(RegExp.InputStart, RegExp.Assertion)])%list)
    with ([(RegExp.InputEnd, RegExp.Assertion)]
            ++ (rev (map (fun c => (RegExp.Char c, RegExp.Atom)) (list_ascii_of_string name))
                ++ [(RegExp.InputStart, RegExp.Assertion)]))%list.
  rewrite fold_left_app. cbn [fold_left fst].
  now rewrite seq_of_literal.
Qed.

Lemma run_literal_tail (cs : list ascii) :
  forall k s,
    RegExp.nonempty
      (RegExp.run (fold_right (fun c r => RegExp.Seq (RegExp.Char c) r)
                              (RegExp.Seq RegExp.InputEnd RegExp.Empty) cs) (k, s)) = true
    <-> map RegExp.canonicalize cs = map RegExp.canonicalize s.
Proof.
  induction cs as [|c cs IH]; intros k s.
  - destruct s as [|x s]; cbn; split; intro H; congruence.
  - destruct s as [|x s]; cbn [fold_right RegExp.run snd fst map].
    + cbn; split; intro H; congruence.
    + destruct (Ascii.eqb (RegExp.canonicalize c) (RegExp.canonicalize x)) eqn:Hcx.
      * apply Ascii.eqb_eq in Hcx. cbn [flat_map]. rewrite app_nil_r, IH.
        split; intro H; [now rewrite Hcx, H | now inversion H].
      * apply Ascii.eqb_neq in Hcx. cbn; split; intro H; [congruence | now inversion H].
Qed.

Lemma no_match_after_start (r : RegExp.regex) (s : list ascii) :
  forall k,
    existsb (fun p => RegExp.nonempty (RegExp.run (RegExp.Seq RegExp.InputStart r) p))
            (RegExp.starts (S k) s) = false.
Proof.
  induction s as [|x s IH]; intro k; cbn; [reflexivity | apply IH].
Qed.

Lemma canonical_lists (a b : list ascii) :
  map RegExp.canonicalize a = map RegExp.canonicalize b
  <-> map JS.toLowerChar a = map JS.toLowerChar b.
Proof.
  revert b; induction a as [|x a IH]; intros [|y b]; cbn; try (split; congruence).
  split; intro H; inversion H as [[Hxy Hab]]; f_equal;
    solve [now apply canonicalize_eq_iff | now apply IH].
Qed.

(** On a pattern without metacharacters [test] is equality up to case. *)
Lemma matches_anchored_literal (name text : string) :
  RegExp.matches (RegExp.anchored_literal (list_ascii_of_string name)) text = true
  <-> same_ignoring_case text name.
Proof.
  unfold RegExp.matches, RegExp.anchored_literal.
  destruct (list_ascii_of_string text) as [|x s] eqn:Htext.
  - cbn [RegExp.starts existsb]. rewrite orb_false_r.
    cbn [RegExp.run fst Nat.eqb flat_map]. rewrite app_nil_r, run_literal_tail.
    rewrite canonical_lists, same_ignoring_case_chars, Htext. split; congruence.
  - cbn [RegExp.starts existsb]. fold (RegExp.starts 1 s).
    rewrite no_match_after_start, orb_false_r.
    cbn [RegExp.run fst Nat.eqb flat_map]. rewrite app_nil_r, run_literal_tail.
    rewrite canonical_lists, same_ignoring_case_chars, Htext. split; congruence.
Qed.

Lemma construct_source (host : string -> option (string -> bool)) (pattern : string)
      (re : RegExp.t) :
  RegExp.construct host pattern = Some re -> RegExp.source re = pattern.
Proof.
  unfold RegExp.construct.
  destruct (RegExp.in_fragment _);
    [destruct (RegExp.parse _ _ _) | destruct (host pattern)]; intro H;
    inversion H; reflexivity.
Qed.

Lemma construct_anchored_literal (host : string -> option (string -> bool)) (name : string) :
  RegExp.literal name = true ->
  RegExp.construct host ("^" ++ name ++ "$") =
  Some (RegExp.mkRegExp ("^" ++ name ++ "$")
          (RegExp.matches (RegExp.anchored_literal (list_ascii_of_string name)))).
Proof.
  intro H. unfold RegExp.construct.
  rewrite parse_anchored_literal by assumption.
  replace (RegExp.in_fragment (list_ascii_of_string ("^" ++ name ++ "$"))) with true;
    [reflexivity|].
  rewrite !chars_app. symmetry.
  change (list_ascii_of_string "^") with ["^"%char].
  cbn [app RegExp.in_fragment list_ascii_of_string existsb Ascii.eqb Bool.eqb orb].
  rewrite in_fragment_literal by exact H. reflexivity.
Qed.

(** The engine on a few patterns: a group, a repeated group, a repeated
    body that can match the empty string, an alternation that escapes the
    anchors, and the three ways a pattern fails to parse. *)
Example regexp_engine_examples :
  let test p s := option_map (fun re => RegExp.test re s)
                             (RegExp.construct (fun _ => None) p) in
  test "^paracetamol$" "Paracetamol" = Some true /\
  test "^paracetamol$" "Paracetamol 500" = Some false /\
  test "^vitamin c (500mg)$" "Vitamin C 500mg" = Some true /\
  test "^(ab)*$" "ababab" = Some true /\
  test "^(ab)*$" "ababa" = Some false /\
  test "^(a*)*b$" "aaab" = Some true /\
  test "^(a|)+$" "aab" = Some false /\
  test "^a|b$" "xxb" = Some true /\
  test "^a+?$" "AAA" = Some true /\
  test "^C++$" "C++" = None /\
  test "^*$" "*" = None /\
  test "^a)$" "a)" = None /\
  test "^(a$" "(a" = None.
Proof. cbv zeta. repeat split; reflexivity. Qed.

(** ** Running the handlers *)

Section Runs.
Variable E : environment.

Lemma exact_in_stock_eq (name : string) (db : list medicine) :
  exact_in_stock E name db =
  match RegExp.construct (host_regexp E) ("^" ++ name ++ "$") with
  | Some re => Ok (find (in_stock re) db)
  | None => Throw SyntaxError
  end.
Proof.
  unfold exact_in_stock, bind, new_RegExp, findOne_in_stock, ret, throw.
  now destruct (RegExp.construct _ _).
Qed.

(** One lookup, on any state: the call is logged unless the constructor
    throws, and the collection is not touched. *)
Lemma lookup_step {A : Type} (name : string) (k : option medicine -> M A) (w : world) :
  (re <- new_RegExp E ("^" ++ name ++ "$") ;; bind (findOne_in_stock re) k) w =
  match exact_in_stock E name (collection w) with
  | Ok found => k found (logged (lookup_call name) w)
  | Throw e => (Throw e, w)
  end.
Proof.
  rewrite exact_in_stock_eq.
  unfold bind, new_RegExp, findOne_in_stock, ret, throw, lookup_call.
  destruct (RegExp.construct _ _) as [re|] eqn:Hre; [|reflexivity].
  now rewrite (construct_source _ _ _ Hre).
Qed.

Lemma check_alternatives_all_miss (name : string) (top3 rest : list string) :
  forall w,
    (forall x, In x rest -> exact_in_stock E x (collection w) = Ok None) ->
    check_alternatives E name top3 rest w =
    (Ok (unavailable name top3),
     mkWorld (collection w) (calls w ++ map lookup_call rest)).
Proof.
  induction rest as [|alt rest IH]; intros w Hmiss.
  - cbn. rewrite app_nil_r. now destruct w.
  - cbn [check_alternatives]. rewrite lookup_step, (Hmiss alt) by now left.
    rewrite IH by (intros x Hx; apply Hmiss; now right).
    cbn. now rewrite <- app_assoc.
Qed.

Lemma check_alternatives_first_hit (name : string) (top3 pre : list string)
      (c : string) (post : list string) (r : medicine) :
  forall w,
    (forall x, In x pre -> exact_in_stock E x (collection w) = Ok None) ->
    exact_in_stock E c (collection w) = Ok (Some r) ->
    check_alternatives E name top3 (pre ++ c :: post) w =
    (Ok (alternative name r),
     mkWorld (collection w) (calls w ++ map lookup_call (pre ++ [c]))).
Proof.
  induction pre as [|alt pre IH]; intros w Hmiss Hhit.
  - cbn [app check_alternatives]. rewrite lookup_step, Hhit. reflexivity.
  - cbn [app check_alternatives]. rewrite lookup_step, (Hmiss alt) by now left.
    rewrite IH; [| intros x Hx; apply Hmiss; now right | exact Hhit].
    cbn. now rewrite <- app_assoc.
Qed.

(** Whatever the candidates, the loop only reads: it leaves the collection
    as it was and adds lookups of a prefix of its candidates to the log. *)
Lemma check_alternatives_reads (name : string) (top3 rest : list string) :
  forall w,
    collection (snd (check_alternatives E name top3 rest w)) = collection w /\
    exists n, calls (snd (check_alternatives E name top3 rest w)) =
              calls w ++ map lookup_call (firstn n rest).
Proof.
  induction rest as [|alt rest IH]; intro w.
  - cbn. split; [reflexivity | exists 0%nat; now rewrite app_nil_r].
  - cbn [check_alternatives]. rewrite lookup_step.
    destruct (exact_in_stock E alt (collection w)) as [[m|]|e].
    + cbn. split; [reflexivity | now exists 1%nat].
    + destruct (IH (logged (lookup_call alt) w)) as [Hc [n Hn]].
      split; [exact Hc|]. exists (S n). rewrite Hn. cbn. now rewrite <- app_assoc.
    + cbn. split; [reflexivity | exists 0%nat; now rewrite app_nil_r].
Qed.

(** The run of [check] on a name that passes validation, branch by branch. *)
Lemma check_run (name : string) (model : option string) (db : list medicine) :
  JS.truthy name = true ->
  check E (mkQuery (Some name) model) (start db) =
  match exact_in_stock E name db with
  | Throw _ => (Ok internal_error, start db)
  | Ok (Some m) => (Ok (available name m), mkWorld db [lookup_call name])
  | Ok None =>
      if (0 <? length (topFuzzy E db name))%nat then
        (Ok (similar name (topFuzzy E db name)),
         mkWorld db [lookup_call name; FindAll; FuseSearch name])
      else if negb (JS.includes allowedGeminiModels (modelToUse model)) then
        (Ok invalid_model, mkWorld db [lookup_call name; FindAll; FuseSearch name])
      else
        match generateContent E (modelToUse model) (prompt_for name) with
        | ApiError message =>
            (Ok (gemini_unreachable message), mkWorld db (calls_up_to_gemini name model))
        | Text rawResponse =>
            let top3 := JS.slice0 3 (parse_alternatives rawResponse) in
            match check_alternatives E name top3 top3
                    (mkWorld db (calls_up_to_gemini name model)) with
            | (Ok r, w) => (Ok r, w)
            | (Throw _, w) => (Ok internal_error, w)
            end
        end
  end.
Proof.
  intro Hname. unfold check. cbn [q_name q_model JS.truthy_opt value].
  rewrite Hname. cbn [negb]. unfold try_catch. rewrite lookup_step.
  cbn [start collection].
  destruct (exact_in_stock E name db) as [[m|]|e]; [reflexivity| |reflexivity].
  unfold bind, find_all, fuse_search, generate, ret.
  cbn [collection logged start calls app fst snd]. fold (topFuzzy E db name).
  destruct (0 <? length (topFuzzy E db name))%nat; [reflexivity|].
  destruct (negb (JS.includes allowedGeminiModels (modelToUse model))); [reflexivity|].
  fold (calls_up_to_gemini name model).
  destruct (generateContent E (modelToUse model) (prompt_for name)); reflexivity.
Qed.

Lemma check_run_no_name (q : check_query) (db : list medicine) :
  JS.truthy_opt (q_name q) = false ->
  check E q (start db) = (Ok name_required, start db).
Proof. intro H. unfold check. now rewrite H. Qed.

End Runs.

(** ** Fuse: results are documents of the collection *)

Section FuseFacts.
Variable E : environment.

Lemma insert_In (x y : Fuse.match_result) (l : list Fuse.match_result) :
  In y (Fuse.insert x l) <-> y = x \/ In y l.
Proof.
  induction l as [|z l IH]; cbn.
  - intuition congruence.
  - destruct (Fuse.before z x); cbn; rewrite ?IH; intuition congruence.
Qed.

Lemma sort_In (y : Fuse.match_result) (l : list Fuse.match_result) :
  In y (Fuse.sort l) <-> In y l.
Proof.
  induction l as [|x l IH]; cbn; [tauto|].
  rewrite insert_In, IH. intuition congruence.
Qed.

Lemma numbered_In (docs : list medicine) :
  forall i r, In r (Fuse.numbered i docs) -> In (snd r) docs.
Proof.
  induction docs as [|d docs IH]; intros i r; cbn; [tauto|].
  intros [<-|H]; [now left | right; eapply IH; eauto].
Qed.

Lemma search_item_In (docs : list medicine) (pattern : string) (r : Fuse.match_result) :
  In r (Fuse.search E docs pattern) -> In (Fuse.item r) docs.
Proof.
  unfold Fuse.search, Fuse.searchObjectList. rewrite sort_In, in_flat_map.
  intros [rec [Hrec Hr]]. unfold Fuse.records in Hrec.
  apply filter_In in Hrec as [Hrec _]. apply numbered_In in Hrec.
  destruct (Fuse.searchIn E pattern (tabletName (snd rec))); cbn in Hr; [|tauto].
  destruct Hr as [<-|[]]. exact Hrec.
Qed.

Lemma In_slice0 {A : Type} (n : nat) (l : list A) (x : A) :
  In x (JS.slice0 n l) -> In x l.
Proof.
  unfold JS.slice0. intro H. rewrite <- (firstn_skipn n l).
  apply in_or_app. now left.
Qed.

Lemma topFuzzy_short (db : list medicine) (name : string) :
  (length (topFuzzy E db name) <= 3)%nat.
Proof.
  unfold topFuzzy, JS.slice0. rewrite length_map, length_firstn. lia.
Qed.

Lemma topFuzzy_in_catalog (db : list medicine) (name n : string) :
  In n (topFuzzy E db name) -> In n (map tabletName db).
Proof.
  unfold topFuzzy. rewrite in_map_iff. intros [r [<- Hr]].
  apply in_map, (search_item_In db name). eapply In_slice0; eauto.
Qed.

Lemma topFuzzy_nonempty (db : list medicine) (name : string) :
  Fuse.search E db name <> [] -> (0 <? length (topFuzzy E db name))%nat = true.
Proof.
  unfold topFuzzy, JS.slice0. destruct (Fuse.search E db name); [congruence|].
  reflexivity.
Qed.

Lemma topFuzzy_empty (db : list medicine) (name : string) :
  Fuse.search E db name = [] -> (0 <? length (topFuzzy E db name))%nat = false.
Proof. unfold topFuzzy. now intros ->. Qed.

(** A one-document collection whose name is the query. *)
Lemma search_same_name (r : medicine) :
  Fuse.isBlank (tabletName r) = false ->
  Fuse.search E [r] (tabletName r) =
  [Fuse.mkResult r 0 (computeScore E 0%Q (tabletName r))].
Proof.
  intro Hblank. unfold Fuse.search, Fuse.searchObjectList, Fuse.records.
  cbn [Fuse.numbered filter snd fst]. rewrite Hblank. cbn [negb flat_map snd fst].
  unfold Fuse.searchIn. now rewrite String.eqb_refl.
Qed.

End FuseFacts.

(** ** The exact stage *)

(** For a name without metacharacters the lookup finds the first document
    whose name is the looked-up name up to case and whose stock is
    positive. *)
Lemma exact_in_stock_literal (E : environment) (name : string) (db : list medicine) :
  RegExp.literal name = true ->
  exists re,
    RegExp.construct (host_regexp E) ("^" ++ name ++ "$") = Some re /\
    RegExp.source re = ("^" ++ name ++ "$")%string /\
    exact_in_stock E name db = Ok (find (in_stock re) db) /\
    forall m, in_stock re m = true <->
              same_ignoring_case (tabletName m) name /\ (0 < quantityInStock m)%Z.
Proof.
  intro Hlit. eexists. split; [now apply construct_anchored_literal|].
  split; [reflexivity|]. split.
  - now rewrite exact_in_stock_eq, construct_anchored_literal.
  - intro m. unfold in_stock. cbn [RegExp.test].
    rewrite andb_true_iff, matches_anchored_literal, Z.ltb_lt. tauto.
Qed.

(** C10.  Both the exact stage and the per-candidate lookup of the substitute
    stage build their name test by pasting the looked-up name between [^]
    and [$].  For every name without regular-expression metacharacters the
    test holds of a record exactly when the record's tablet name is the
    looked-up name up to letter case (and the lookup adds the positive-stock
    condition).  The equivalence is not guaranteed beyond such names: with
    a metacharacter the test can accept a different name and can reject the
    very same name. *)
Theorem exact_predicate_is_an_unescaped_anchored_pattern :
  (forall (E : environment) (name : string),
      RegExp.literal name = true ->
      exists re,
        RegExp.construct (host_regexp E) ("^" ++ name ++ "$") = Some re /\
        RegExp.source re = ("^" ++ name ++ "$")%string /\
        (forall db, exact_in_stock E name db = Ok (find (in_stock re) db)) /\
        (forall text, RegExp.test re text = true <-> same_ignoring_case text name) /\
        (forall m, in_stock re m = true <->
                   same_ignoring_case (tabletName m) name /\ (0 < quantityInStock m)%Z))
  /\
  (forall E : environment,
      exists re,
        RegExp.literal "Co.codamol" = false /\
        RegExp.construct (host_regexp E) ("^" ++ "Co.codamol" ++ "$") = Some re /\
        RegExp.test re "Co-codamol" = true /\
        ~ same_ignoring_case "Co-codamol" "Co.codamol")
  /\
  (forall E : environment,
      exists re,
        RegExp.literal "Vitamin C (500mg)" = false /\
        RegExp.construct (host_regexp E) ("^" ++ "Vitamin C (500mg)" ++ "$") = Some re /\
        RegExp.test re "Vitamin C (500mg)" = false /\
        same_ignoring_case "Vitamin C (500mg)" "Vitamin C (500mg)").
Proof.
  split; [|split].
  - intros E name Hlit. eexists. split; [now apply construct_anchored_literal|].
    split; [reflexivity|]. split; [|split].
    + intro db. now rewrite exact_in_stock_eq, construct_anchored_literal.
    + intro text. cbn [RegExp.test]. apply matches_anchored_literal.
    + intro m. unfold in_stock. cbn [RegExp.test].
      rewrite andb_true_iff, matches_anchored_literal, Z.ltb_lt. tauto.
  - intro E. eexists. split; [reflexivity|]. split; [reflexivity|].
    split; [reflexivity|]. unfold same_ignoring_case. cbn. discriminate.
  - intro E. eexists. split; [reflexivity|]. split; [reflexivity|].
    split; reflexivity.
Qed.

Lemma exact_predicate_on_paracetamol :
  RegExp.literal "Paracetamol" = true /\
  exists re,
    RegExp.construct (host_regexp (stub (Text "none"))) ("^" ++ "Paracetamol" ++ "$") = Some re /\
    RegExp.source re = ("^" ++ "Paracetamol" ++ "$")%string /\
    (forall db, exact_in_stock (stub (Text "none")) "Paracetamol" db = Ok (find (in_stock re) db)) /\
    (forall text, RegExp.test re text = true <-> same_ignoring_case text "Paracetamol") /\
    (forall m, in_stock re m = true <->
               same_ignoring_case (tabletName m) "Paracetamol" /\ (0 < quantityInStock m)%Z).
Proof.
  split; [reflexivity|].
  apply (proj1 exact_predicate_is_an_unescaped_anchored_pattern (stub (Text "none")) "Paracetamol").
  reflexivity.
Defined.

(** With a literal name, a record of that name (up to case) with positive
    stock makes the handler answer [available_locally] after one lookup:
    the record returned is the first such record of the collection. *)
Lemma exact_hit_for_literal_name (E : environment) (name : string)
      (model : option string) (db : list medicine) (r : medicine) :
  JS.truthy name = true ->
  RegExp.literal name = true ->
  In r db ->
  same_ignoring_case (tabletName r) name ->
  (0 < quantityInStock r)%Z ->
  exists m,
    respond (check E (mkQuery (Some name) model)) db = Some (available name m) /\
    In m db /\ same_ignoring_case (tabletName m) name /\ (0 < quantityInStock m)%Z /\
    trace (check E (mkQuery (Some name) model)) db = [lookup_call name].
Proof.
  intros Hname Hlit Hin Hsame Hstock.
  destruct (exact_in_stock_literal E name db Hlit) as [re [_ [_ [Hexact Hiff]]]].
  destruct (find (in_stock re) db) as [m|] eqn:Hfind.
  - exists m. unfold respond, trace. rewrite check_run, Hexact by assumption. cbn.
    apply find_some in Hfind as [Hm Hok]. apply Hiff in Hok. tauto.
  - exfalso. apply (find_none _ _ Hfind) in Hin.
    assert (in_stock re r = true) by (apply Hiff; tauto). congruence.
Qed.

(** C1, at a name with parentheses.  The only record carries the queried
    name up to case and is in stock, yet the exact stage misses it, the
    fuzzy stage runs and the answer is [not_found_but_similar_exist]. *)
Theorem exact_stage_misses_a_name_with_parentheses
        (E : environment) (model : option string) :
  let record := med "Vitamin C (500mg)" 10 in
  let q := mkQuery (Some "vitamin c (500mg)") model in
  same_ignoring_case "vitamin c (500mg)" (tabletName record) /\
  (0 < quantityInStock record)%Z /\
  exact_in_stock E "vitamin c (500mg)" [record] = Ok None /\
  respond (check E q) [record] =
    Some (similar "vitamin c (500mg)" ["Vitamin C (500mg)"]) /\
  trace (check E q) [record] =
    [lookup_call "vitamin c (500mg)"; FindAll; FuseSearch "vitamin c (500mg)"].
Proof.
  cbv zeta. split; [reflexivity|]. split; [reflexivity|]. split; [reflexivity|].
  unfold respond, trace. rewrite check_run by reflexivity.
  split; reflexivity.
Qed.

(** ** The fuzzy stage *)

(** C2.  When the exact stage misses and Fuse, run over the whole collection
    whatever the stock of its records, returns something, the answer is
    [not_found_but_similar_exist] with at most three names, each the
    [tabletName] of a record of the collection, and Gemini is not called.
    In particular a collection holding a single record with stock 0 and
    the queried (non-blank) name answers with that name. *)
Theorem fuzzy_stage_reports_catalog_names
        (E : environment) (name : string) (model : option string) (db : list medicine) :
  JS.truthy name = true ->
  exact_in_stock E name db = Ok None ->
  (Fuse.search E db name <> [] ->
   respond (check E (mkQuery (Some name) model)) db =
     Some (similar name (topFuzzy E db name)) /\
   topFuzzy E db name <> [] /\
   (length (topFuzzy E db name) <= 3)%nat /\
   (forall n, In n (topFuzzy E db name) -> In n (map tabletName db)) /\
   suggester_calls (trace (check E (mkQuery (Some name) model)) db) = 0%nat)
  /\
  (forall r,
      db = [r] -> tabletName r = name -> quantityInStock r = 0%Z ->
      Fuse.isBlank name = false ->
      respond (check E (mkQuery (Some name) model)) db = Some (similar name [name])).
Proof.
  intros Hname Hexact. split.
  - intro Hfuzzy. pose proof (topFuzzy_nonempty E db name Hfuzzy) as Hlen.
    unfold respond, trace. rewrite check_run, Hexact, Hlen by assumption.
    cbn [fst snd calls]. split; [reflexivity|]. split.
    + intro Hnil. rewrite Hnil in Hlen. discriminate.
    + split; [apply topFuzzy_short|]. split; [|reflexivity].
      intro n. apply topFuzzy_in_catalog.
  - intros r -> <- _ Hblank.
    unfold respond. rewrite check_run, Hexact by assumption.
    unfold topFuzzy. rewrite search_same_name by assumption. reflexivity.
Qed.

Lemma fuzzy_stage_on_out_of_stock_paracetamol :
  JS.truthy "Paracetamol" = true /\
  exact_in_stock (stub (Text "none")) "Paracetamol" [med "Paracetamol" 0] = Ok None /\
  Fuse.search (stub (Text "none")) [med "Paracetamol" 0] "Paracetamol" <> [] /\
  respond (check (stub (Text "none")) (mkQuery (Some "Paracetamol") None))
          [med "Paracetamol" 0] =
    Some (similar "Paracetamol" ["Paracetamol"]).
Proof.
  split; [reflexivity|]. split; [reflexivity|]. split; [discriminate|].
  apply (proj2 (fuzzy_stage_reports_catalog_names
                  (stub (Text "none")) "Paracetamol" None [med "Paracetamol" 0]
                  eq_refl eq_refl)
               (med "Paracetamol" 0));
    reflexivity.
Defined.

(** ** The substitute stage *)

Lemma top3_short (rawResponse : string) :
  (length (JS.slice0 3 (parse_alternatives rawResponse)) <= 3)%nat.
Proof. unfold JS.slice0. rewrite length_firstn. lia. Qed.

(** C3.  Once Gemini has answered, the candidates are the first three
    parsed names.  They are looked up in that order with the lookup of the
    exact stage; the first one found in stock ends the loop and is returned
    as [alternative_available_locally] with its disclaimer, the candidates
    after it staying unexamined; when every candidate misses the answer is
    [not_available_anywhere] with the candidate list and its disclaimer.
    In every case the lookups made are those of a prefix of the (at most
    three) candidates. *)
Theorem substitute_stage_returns_first_candidate_in_stock
        (E : environment) (name : string) (model : option string)
        (db : list medicine) (rawResponse : string) :
  reaches_gemini E name model db ->
  generateContent E (modelToUse model) (prompt_for name) = Text rawResponse ->
  let top3 := JS.slice0 3 (parse_alternatives rawResponse) in
  let q := mkQuery (Some name) model in
  (length top3 <= 3)%nat /\
  (forall pre c post r,
      top3 = (pre ++ c :: post)%list ->
      (forall x, In x pre -> exact_in_stock E x db = Ok None) ->
      exact_in_stock E c db = Ok (Some r) ->
      respond (check E q) db =
        Some (json (alternative_available_locally
                      ("'" ++ name ++ "' is unavailable, but Gemini suggested an alternative that is in stock.")
                      r alternative_disclaimer)) /\
      trace (check E q) db =
        (calls_up_to_gemini name model ++ map lookup_call (pre ++ [c]))%list)
  /\
  ((forall x, In x top3 -> exact_in_stock E x db = Ok None) ->
   respond (check E q) db =
     Some (json (not_available_anywhere
                   ("'" ++ name ++ "' is not in local stock. Gemini suggestions were checked but none are in stock.")
                   top3 unavailable_disclaimer)) /\
   trace (check E q) db = (calls_up_to_gemini name model ++ map lookup_call top3)%list)
  /\
  (exists n, trace (check E q) db =
             (calls_up_to_gemini name model ++ map lookup_call (firstn n top3))%list).
Proof.
  intros [Hname [Hexact [Hfuzzy Hmodel]]] Hreply top3 q.
  assert (check E q (start db) =
          match check_alternatives E name top3 top3
                  (mkWorld db (calls_up_to_gemini name model)) with
          | (Ok r, w) => (Ok r, w)
          | (Throw _, w) => (Ok internal_error, w)
          end) as Hrun.
  { unfold q. rewrite check_run, Hexact, (topFuzzy_empty E db name Hfuzzy), Hmodel, Hreply
      by assumption. reflexivity. }
  split; [apply top3_short|]. split; [|split].
  - intros pre c post r Htop Hmiss Hhit. unfold respond, trace. rewrite Hrun.
    replace (check_alternatives E name top3 top3)
      with (check_alternatives E name top3 (pre ++ c :: post)) by now rewrite <- Htop.
    rewrite (check_alternatives_first_hit E name top3 pre c post r) by assumption.
    split; reflexivity.
  - intro Hmiss. unfold respond, trace. rewrite Hrun.
    rewrite check_alternatives_all_miss by assumption. split; reflexivity.
  - unfold trace. rewrite Hrun.
    destruct (check_alternatives_reads E name top3 top3
                (mkWorld db (calls_up_to_gemini name model))) as [_ [n Hn]].
    exists n. destruct (check_alternatives E name top3 top3 _) as [[r|e] w]; exact Hn.
Qed.

(** [Tylenol] against a stock of Ibuprofen, Gemini proposing Paracetamol and
    then Ibuprofen. *)
Lemma substitute_stage_on_tylenol :
  let E := stub (Text "Paracetamol, Ibuprofen") in
  let db := [med "Ibuprofen" 5] in
  reaches_gemini E "Tylenol" None db /\
  JS.slice0 3 (parse_alternatives "Paracetamol, Ibuprofen") = ["Paracetamol"; "Ibuprofen"] /\
  respond (check E (mkQuery (Some "Tylenol") None)) db =
    Some (alternative "Tylenol" (med "Ibuprofen" 5)) /\
  trace (check E (mkQuery (Some "Tylenol") None)) db =
    (calls_up_to_gemini "Tylenol" None
       ++ [lookup_call "Paracetamol"; lookup_call "Ibuprofen"])%list.
Proof.
  cbv zeta.
  assert (reaches_gemini (stub (Text "Paracetamol, Ibuprofen")) "Tylenol" None
                         [med "Ibuprofen" 5]) as Hreach
    by (repeat split; reflexivity).
  split; [exact Hreach|]. split; [reflexivity|].
  apply (proj1 (proj2 (substitute_stage_returns_first_candidate_in_stock
                         (stub (Text "Paracetamol, Ibuprofen")) "Tylenol" None
                         [med "Ibuprofen" 5] "Paracetamol, Ibuprofen" Hreach eq_refl))
               ["Paracetamol"] "Ibuprofen" [] (med "Ibuprofen" 5)).
  - reflexivity.
  - intros x [<-|[]]. reflexivity.
  - reflexivity.
Defined.

(** ** The allow-list of models *)

(** The model check sits behind steps 1 and 2: an exact hit is answered
    without looking at the model. *)
Lemma unknown_model_ignored_on_exact_hit :
  JS.includes allowedGeminiModels "gpt-4" = false /\
  respond (check (stub (Text "none")) (mkQuery (Some "paracetamol") (Some "gpt-4")))
          [med "Paracetamol" 10] =
    Some (available "paracetamol" (med "Paracetamol" 10)) /\
  respond (check (stub (Text "none")) (mkQuery (Some "paracetamol") (Some "gpt-4")))
          [med "Paracetamol" 10] <> Some invalid_model.
Proof. split; [reflexivity|]. split; [reflexivity | discriminate]. Qed.

(** C4, as the handler has it.  A non-empty model outside the allow-list
    never leads to a call to Gemini, whatever the collection; the
    invalid-model answer (status 400) is given when steps 1 and 2 both
    miss. *)
Theorem unknown_model_never_reaches_gemini
        (E : environment) (name : option string) (model : string) (db : list medicine) :
  JS.truthy model = true ->
  JS.includes allowedGeminiModels model = false ->
  suggester_calls (trace (check E (mkQuery name (Some model))) db) = 0%nat /\
  (forall n,
      name = Some n -> JS.truthy n = true ->
      exact_in_stock E n db = Ok None ->
      Fuse.search E db n = [] ->
      respond (check E (mkQuery name (Some model))) db = Some invalid_model /\
      trace (check E (mkQuery name (Some model))) db = [lookup_call n; FindAll; FuseSearch n]).
Proof.
  intros Hmodel Hallowed.
  assert (modelToUse (Some model) = model) as Huse
    by (unfold modelToUse; cbn; now rewrite Hmodel).
  split.
  - unfold trace. destruct (JS.truthy_opt name) eqn:Hname.
    + destruct name as [n|]; [|discriminate]. cbn in Hname.
      rewrite check_run by assumption. rewrite Huse, Hallowed. cbn [negb].
      destruct (exact_in_stock E n db) as [[m|]|e]; try reflexivity.
      destruct (0 <? length (topFuzzy E db n))%nat; reflexivity.
    + now rewrite check_run_no_name.
  - intros n -> Hn Hexact Hfuzzy. unfold respond, trace.
    rewrite check_run, Hexact, (topFuzzy_empty E db n Hfuzzy), Huse, Hallowed by assumption.
    split; reflexivity.
Qed.

Lemma unknown_model_on_empty_collection :
  JS.truthy "gpt-4" = true /\
  JS.includes allowedGeminiModels "gpt-4" = false /\
  suggester_calls
    (trace (check (stub (Text "none")) (mkQuery (Some "Aspirin") (Some "gpt-4"))) []) = 0%nat /\
  respond (check (stub (Text "none")) (mkQuery (Some "Aspirin") (Some "gpt-4"))) [] =
    Some invalid_model.
Proof.
  split; [reflexivity|]. split; [reflexivity|].
  destruct (unknown_model_never_reaches_gemini
              (stub (Text "none")) (Some "Aspirin") "gpt-4" [] eq_refl eq_refl)
    as [Hcalls Hanswer].
  split; [exact Hcalls|].
  exact (proj1 (Hanswer "Aspirin" eq_refl eq_refl eq_refl eq_refl)).
Defined.

(** ** Validation of the name *)

(** A name of one space passes [!name]: the lookup, the fuzzy search and the
    call to Gemini all take place. *)
Lemma blank_name_runs_every_stage :
  JS.trim " " = "" /\
  trace (check (stub (Text "None")) (mkQuery (Some " ") None)) [] =
    calls_up_to_gemini " " None /\
  suggester_calls (trace (check (stub (Text "None")) (mkQuery (Some " ") None)) []) = 1%nat /\
  respond (check (stub (Text "None")) (mkQuery (Some " ") None)) [] =
    Some (unavailable " " []).
Proof. repeat split; reflexivity. Qed.

(** C5, as the handler has it.  A missing or empty name is answered with the
    name-required error (status 400) and nothing else happens: no lookup,
    no fuzzy search, no call to Gemini, and the collection is as before. *)
Theorem missing_name_is_rejected_before_any_stage
        (E : environment) (q : check_query) (db : list medicine) :
  JS.truthy_opt (q_name q) = false ->
  respond (check E q) db = Some name_required /\
  status name_required = 400%nat /\
  trace (check E q) db = [] /\
  stored (check E q) db = db.
Proof.
  intro H. unfold respond, trace, stored. rewrite check_run_no_name by assumption.
  repeat split; reflexivity.
Qed.

Lemma empty_name_is_rejected :
  JS.truthy_opt (q_name (mkQuery (Some "") None)) = false /\
  respond (check (stub (Text "none")) (mkQuery (Some "") None)) [med "Paracetamol" 10] =
    Some name_required /\
  trace (check (stub (Text "none")) (mkQuery (Some "") None)) [med "Paracetamol" 10] = [].
Proof.
  split; [reflexivity|].
  destruct (missing_name_is_rejected_before_any_stage
              (stub (Text "none")) (mkQuery (Some "") None) [med "Paracetamol" 10] eq_refl)
    as [Hanswer [_ [Htrace _]]].
  split; [exact Hanswer | exact Htrace].
Defined.

(** ** The reply of Gemini *)

Lemma parse_alternatives_none (rawResponse : string) :
  JS.toLowerCase rawResponse = "none" -> parse_alternatives rawResponse = [].
Proof.
  intro H. unfold parse_alternatives. rewrite H. cbn.
  now rewrite andb_false_r.
Qed.

(** C6.  When Gemini is called and replies with [none] in any letter case,
    there are no candidates: no lookup follows and the answer is
    [not_available_anywhere] with an empty list. *)
Theorem reply_none_means_no_candidates
        (E : environment) (name : string) (model : option string)
        (db : list medicine) (rawResponse : string) :
  reaches_gemini E name model db ->
  generateContent E (modelToUse model) (prompt_for name) = Text rawResponse ->
  JS.toLowerCase rawResponse = "none" ->
  respond (check E (mkQuery (Some name) model)) db =
    Some (json (not_available_anywhere
                  ("'" ++ name ++ "' is not in local stock. Gemini suggestions were checked but none are in stock.")
                  [] unavailable_disclaimer)) /\
  trace (check E (mkQuery (Some name) model)) db = calls_up_to_gemini name model.
Proof.
  intros [Hname [Hexact [Hfuzzy Hmodel]]] Hreply Hnone. unfold respond, trace.
  rewrite check_run, Hexact, (topFuzzy_empty E db name Hfuzzy), Hmodel, Hreply
    by assumption.
  cbn [negb]. cbv zeta. rewrite (parse_alternatives_none rawResponse Hnone).
  split; reflexivity.
Qed.

Lemma reply_none_for_aspirin :
  reaches_gemini (stub (Text "NoNe")) "Aspirin" None [] /\
  JS.toLowerCase "NoNe" = "none" /\
  respond (check (stub (Text "NoNe")) (mkQuery (Some "Aspirin") None)) [] =
    Some (unavailable "Aspirin" []) /\
  trace (check (stub (Text "NoNe")) (mkQuery (Some "Aspirin") None)) [] =
    calls_up_to_gemini "Aspirin" None.
Proof.
  assert (reaches_gemini (stub (Text "NoNe")) "Aspirin" None []) as Hreach
    by (repeat split; reflexivity).
  split; [exact Hreach|]. split; [reflexivity|].
  exact (reply_none_means_no_candidates (stub (Text "NoNe")) "Aspirin" None [] "NoNe"
           Hreach eq_refl eq_refl).
Defined.

(** C7.  When the call to Gemini fails, the answer is the 502 error with the
    failure message: its body is none of the four resolution bodies, and no
    candidate is looked up. *)
Theorem gemini_failure_is_surfaced_as_502
        (E : environment) (name : string) (model : option string)
        (db : list medicine) (message : string) :
  reaches_gemini E name model db ->
  generateContent E (modelToUse model) (prompt_for name) = ApiError message ->
  respond (check E (mkQuery (Some name) model)) db =
    Some (status_json 502
            (error_body "Error communicating with Google Gemini API." (Some message))) /\
  (forall r, respond (check E (mkQuery (Some name) model)) db = Some r ->
             status r = 502%nat /\ is_resolution (payload r) = false) /\
  trace (check E (mkQuery (Some name) model)) db = calls_up_to_gemini name model.
Proof.
  intros [Hname [Hexact [Hfuzzy Hmodel]]] Hreply. unfold respond, trace.
  rewrite check_run, Hexact, (topFuzzy_empty E db name Hfuzzy), Hmodel, Hreply
    by assumption.
  cbn. split; [reflexivity|]. split; [|reflexivity].
  intros r Hr. inversion Hr. split; reflexivity.
Qed.

Lemma gemini_failure_for_aspirin :
  reaches_gemini (stub (ApiError "403 Forbidden")) "Aspirin" None [] /\
  respond (check (stub (ApiError "403 Forbidden")) (mkQuery (Some "Aspirin") None)) [] =
    Some (gemini_unreachable "403 Forbidden").
Proof.
  assert (reaches_gemini (stub (ApiError "403 Forbidden")) "Aspirin" None []) as Hreach
    by (repeat split; reflexivity).
  split; [exact Hreach|].
  exact (proj1 (gemini_failure_is_surfaced_as_502
                  (stub (ApiError "403 Forbidden")) "Aspirin" None [] "403 Forbidden"
                  Hreach eq_refl)).
Defined.

(** ** The collection is only read *)

(** C9.  Whatever the query and the collection, [check] leaves every
    document as it was: the collection after the run is the collection before
    it, in every answer the handler can give. *)
Theorem check_leaves_the_collection_unchanged
        (E : environment) (q : check_query) (db : list medicine) :
  stored (check E q) db = db.
Proof.
  unfold stored. destruct (JS.truthy_opt (q_name q)) eqn:Hname.
  - destruct q as [[name|] model]; [|discriminate]. cbn in Hname.
    rewrite check_run by assumption.
    destruct (exact_in_stock E name db) as [[m|]|e]; try reflexivity.
    destruct (0 <? length (topFuzzy E db name))%nat; [reflexivity|].
    destruct (negb (JS.includes allowedGeminiModels (modelToUse model))); [reflexivity|].
    destruct (generateContent E (modelToUse model) (prompt_for name)) as [raw|message];
      [|reflexivity].
    cbv zeta.
    pose proof (check_alternatives_reads E name
                  (JS.slice0 3 (parse_alternatives raw))
                  (JS.slice0 3 (parse_alternatives raw))
                  (mkWorld db (calls_up_to_gemini name model))) as [Hkeep _].
    destruct (check_alternatives E name _ _ _) as [[r|e] w]; exact Hkeep.
  - now rewrite check_run_no_name.
Qed.

(** [check] always answers: no exception leaves the handler. *)
Lemma check_always_responds (E : environment) (q : check_query) (db : list medicine) :
  exists r, respond (check E q) db = Some r.
Proof.
  unfold respond. destruct (JS.truthy_opt (q_name q)) eqn:Hname.
  - destruct q as [[name|] model]; [|discriminate]. cbn in Hname.
    rewrite check_run by assumption.
    destruct (exact_in_stock E name db) as [[m|]|e]; try (eexists; reflexivity).
    destruct (0 <? length (topFuzzy E db name))%nat; [eexists; reflexivity|].
    destruct (negb (JS.includes allowedGeminiModels (modelToUse model)));
      [eexists; reflexivity|].
    destruct (generateContent E (modelToUse model) (prompt_for name)) as [raw|message];
      [|eexists; reflexivity].
    cbv zeta. destruct (check_alternatives E name _ _ _) as [[r|e] w]; eexists; reflexivity.
  - rewrite check_run_no_name by assumption. eexists; reflexivity.
Qed.

(** The first scenario of the specification: a query in another letter case
    than the stocked name. *)
Example paracetamol_is_available :
  respond (check (stub (Text "none")) (mkQuery (Some "paracetamol") None))
          [med "Paracetamol" 10] =
    Some (available "paracetamol" (med "Paracetamol" 10)) /\
  trace (check (stub (Text "none")) (mkQuery (Some "paracetamol") None))
        [med "Paracetamol" 10] = [lookup_call "paracetamol"].
Proof. split; reflexivity. Qed.

(** ** Adding a medicine *)

Section AddRuns.

(** The run of [add] on a request that carries a name and a quantity. *)
Lemma add_run (now : Z) (b : add_request) (name : string) (db : list medicine) :
  b_tabletName b = Some name ->
  JS.truthy name = true ->
  is_undefined (b_quantityInStock b) = false ->
  add now b (start db) =
  match find (fun m => String.eqb (tabletName m) (JS.trim name)) db with
  | Some _ => (Ok (already_exists name), mkWorld db [FindOneByName name])
  | None =>
      match validate (new_Medicine now b) with
      | None => (Ok server_error, mkWorld db [FindOneByName name])
      | Some doc =>
          if existsb (fun m => String.eqb (tabletName m) (tabletName doc)) db
          then (Ok (already_exists name), mkWorld db [FindOneByName name; Save doc])
          else (Ok (added name doc),
                mkWorld (db ++ [doc]) [FindOneByName name; Save doc])
      end
  end.
Proof.
  intros Hb Hname Hq. unfold add. rewrite Hb, Hq. cbn [JS.truthy_opt value].
  rewrite Hname. cbn [negb orb].
  unfold try_catch, bind, findOne_by_name, save, ret. cbn [collection start logged calls app].
  destruct (find _ db); [reflexivity|].
  destruct (validate (new_Medicine now b)) as [doc|]; [|reflexivity].
  cbn [collection start logged calls app].
  destruct (existsb _ db); reflexivity.
Qed.

Lemma add_run_incomplete (now : Z) (b : add_request) (db : list medicine) :
  negb (JS.truthy_opt (b_tabletName b)) || is_undefined (b_quantityInStock b) = true ->
  add now b (start db) = (Ok fields_required, start db).
Proof. intro H. unfold add, try_catch. now rewrite H. Qed.

Lemma validate_name (now : Z) (b : add_request) (name : string) (doc : medicine) :
  b_tabletName b = Some name ->
  validate (new_Medicine now b) = Some doc ->
  tabletName doc = JS.trim name.
Proof.
  intros Hb. unfold validate, new_Medicine. cbn. rewrite Hb. cbn.
  destruct (b_quantityInStock b), (b_price b); try discriminate.
  destruct (_ && _ && _); [|discriminate]. now intros [= <-].
Qed.

Lemma find_by_name_none (db : list medicine) (n : string) :
  find (fun m => String.eqb (tabletName m) n) db = None -> ~ In n (map tabletName db).
Proof.
  intros Hfind Hin. apply in_map_iff in Hin as [m [Hm Hin]].
  apply (find_none _ _ Hfind) in Hin. cbn in Hin.
  rewrite Hm, String.eqb_refl in Hin. discriminate.
Qed.

End AddRuns.

(** A second record whose name differs from an existing one only by case
    is accepted. *)
Lemma add_accepts_a_case_variant :
  let db := [med "Paracetamol" 10] in
  let b := mkAdd (Some "paracetamol") (Some 5%Z) (Some 1%Q) None None None in
  same_ignoring_case "paracetamol" (tabletName (med "Paracetamol" 10)) /\
  respond (add 0 b) db =
    Some (added "paracetamol" (med "paracetamol" 5)) /\
  status (added "paracetamol" (med "paracetamol" 5)) = 201%nat /\
  stored (add 0 b) db = [med "Paracetamol" 10; med "paracetamol" 5].
Proof. cbv zeta. repeat split; reflexivity. Qed.

(** C8, as the handler has it.  Names are compared as they are, letter case
    included, after trimming: every [add] keeps the names of the collection
    pairwise distinct, and a request that carries a quantity and whose
    trimmed name is the name of an existing record is answered with the
    already-exists error (status 400) and leaves the collection as it was. *)
Theorem add_keeps_names_distinct_and_rejects_duplicates
        (now : Z) (b : add_request) (db : list medicine) :
  (NoDup (map tabletName db) -> NoDup (map tabletName (stored (add now b) db)))
  /\
  (forall name m,
      b_tabletName b = Some name -> JS.truthy name = true ->
      is_undefined (b_quantityInStock b) = false ->
      In m db -> tabletName m = JS.trim name ->
      respond (add now b) db = Some (already_exists name) /\
      status (already_exists name) = 400%nat /\
      stored (add now b) db = db).
Proof.
  split.
  - intro Hdistinct. unfold stored.
    destruct (negb (JS.truthy_opt (b_tabletName b)) || is_undefined (b_quantityInStock b))
      eqn:Hin.
    + now rewrite add_run_incomplete.
    + apply orb_false_elim in Hin as [Hname Hq]. apply negb_false_iff in Hname.
      destruct (b_tabletName b) as [name|] eqn:Hb; [|discriminate]. cbn in Hname.
      rewrite (add_run now b name db Hb Hname Hq).
      destruct (find _ db) eqn:Hfind; [exact Hdistinct|].
      destruct (validate (new_Medicine now b)) as [doc|] eqn:Hdoc; [|exact Hdistinct].
      destruct (existsb _ db); [exact Hdistinct|].
      cbn [snd collection]. rewrite map_app. cbn [map].
      apply NoDup_app; [exact Hdistinct | repeat constructor; intros [] |].
      intros n Hn [<-|[]]. rewrite (validate_name now b name doc Hb Hdoc) in Hn.
      now apply (find_by_name_none db (JS.trim name)).
  - intros name m Hb Hname Hq Hin Hm. unfold respond, stored.
    rewrite (add_run now b name db Hb Hname Hq).
    destruct (find _ db) eqn:Hfind; [repeat split; reflexivity|].
    exfalso. apply (find_by_name_none db (JS.trim name) Hfind).
    rewrite <- Hm. now apply in_map.
Qed.

Lemma add_rejects_a_second_paracetamol :
  let db := [med "Paracetamol" 10] in
  let b := mkAdd (Some " Paracetamol ") (Some 5%Z) (Some 1%Q) None None None in
  tabletName (med "Paracetamol" 10) = JS.trim " Paracetamol " /\
  respond (add 0 b) db = Some (already_exists " Paracetamol ") /\
  stored (add 0 b) db = db.
Proof.
  cbv zeta. split; [reflexivity|].
  destruct (proj2 (add_keeps_names_distinct_and_rejects_duplicates
                     0
                     (mkAdd (Some " Paracetamol ") (Some 5%Z) (Some 1%Q) None None None)
                     [med "Paracetamol" 10])
                  " Paracetamol " (med "Paracetamol" 10)
                  eq_refl eq_refl eq_refl (or_introl eq_refl) eq_refl)
    as [Hanswer [_ Hstored]].
  split; [exact Hanswer | exact Hstored].
Defined.

(** * Further properties of the routes *)

(** ** Trimming and splitting *)

Lemma trimEnd_idempotent (s : string) : JS.trimEnd (JS.trimEnd s) = JS.trimEnd s.
Proof.
  induction s as [|c s IH]; [reflexivity|]. cbn [JS.trimEnd].
  destruct (JS.trimEnd s) as [|d t] eqn:Ht.
  - destruct (JS.isWhiteSpace c) eqn:Hc; [reflexivity|]. cbn. now rewrite Hc.
  - cbn [JS.trimEnd] in *. now rewrite IH.
Qed.

(** A string that does not start with whitespace. *)
Lemma trimStart_head (s : string) :
  JS.trimStart s = EmptyString \/
  exists c t, JS.trimStart s = String c t /\ JS.isWhiteSpace c = false.
Proof.
  induction s as [|c s IH]; [now left|]. cbn.
  destruct (JS.isWhiteSpace c) eqn:Hc; [exact IH|]. right. now exists c, s.
Qed.

Lemma trimEnd_head (c : ascii) (t : string) :
  JS.isWhiteSpace c = false -> exists u, JS.trimEnd (String c t) = String c u.
Proof.
  intro Hc. cbn. destruct (JS.trimEnd t); [rewrite Hc|]; eauto.
Qed.

Lemma trim_idempotent (s : string) : JS.trim (JS.trim s) = JS.trim s.
Proof.
  unfold JS.trim. destruct (trimStart_head s) as [->|[c [t [-> Hc]]]]; [reflexivity|].
  destruct (trimEnd_head c t Hc) as [u Hu]. rewrite Hu. cbn [JS.trimStart].
  rewrite Hc, <- Hu. apply trimEnd_idempotent.
Qed.

Lemma trimStart_chars (s : string) (x : ascii) :
  In x (list_ascii_of_string (JS.trimStart s)) -> In x (list_ascii_of_string s).
Proof.
  induction s as [|c s IH]; cbn; [tauto|].
  destruct (JS.isWhiteSpace c); cbn; tauto.
Qed.

Lemma trimEnd_chars (s : string) (x : ascii) :
  In x (list_ascii_of_string (JS.trimEnd s)) -> In x (list_ascii_of_string s).
Proof.
  induction s as [|c s IH]; cbn; [tauto|].
  destruct (JS.trimEnd s) as [|d t].
  - destruct (JS.isWhiteSpace c); cbn; tauto.
  - cbn in *. tauto.
Qed.

Lemma trim_chars (s : string) (x : ascii) :
  In x (list_ascii_of_string (JS.trim s)) -> In x (list_ascii_of_string s).
Proof. intro H. now apply trimStart_chars, trimEnd_chars. Qed.

(** A character that is not whitespace survives trimming. *)
Lemma trimStart_keeps (s : string) (x : ascii) :
  JS.isWhiteSpace x = false ->
  In x (list_ascii_of_string s) -> In x (list_ascii_of_string (JS.trimStart s)).
Proof.
  intro Hx. induction s as [|c s IH]; cbn; [tauto|].
  destruct (JS.isWhiteSpace c) eqn:Hc; cbn; [|tauto].
  intros [->|H]; [congruence | now apply IH].
Qed.

Lemma trimEnd_keeps (s : string) (x : ascii) :
  JS.isWhiteSpace x = false ->
  In x (list_ascii_of_string s) -> In x (list_ascii_of_string (JS.trimEnd s)).
Proof.
  intro Hx. induction s as [|c s IH]; cbn; [tauto|].
  destruct (JS.trimEnd s) as [|d t].
  - intros [->|H]; [rewrite Hx; now left | destruct (IH H)].
  - cbn in *. tauto.
Qed.

Lemma split_nonempty (sep : ascii) (s : string) : JS.split sep s <> [].
Proof.
  destruct s as [|c s]; cbn; [discriminate|].
  destruct (Ascii.eqb c sep); [discriminate|]. destruct (JS.split sep s); discriminate.
Qed.

(** No piece of a split holds the separator. *)
Lemma split_pieces (sep : ascii) (s : string) :
  forall piece, In piece (JS.split sep s) -> ~ In sep (list_ascii_of_string piece).
Proof.
  induction s as [|c s IH]; cbn.
  - intros piece [<-|[]]. cbn. tauto.
  - destruct (Ascii.eqb c sep) eqn:Hc.
    + intros piece [<-|H]; [cbn; tauto | now apply IH].
    + apply Ascii.eqb_neq in Hc. destruct (JS.split sep s) as [|h t] eqn:Hs.
      * now destruct (split_nonempty sep s).
      * intros piece [<-|H]; [|apply IH; now right].
        cbn. intros [Heq|Hin]; [congruence|]. apply (IH h); [now left | exact Hin].
Qed.

(** A string without the separator is its own single piece. *)
Lemma split_whole (sep : ascii) (s : string) :
  ~ In sep (list_ascii_of_string s) -> JS.split sep s = [s].
Proof.
  induction s as [|c s IH]; cbn; [reflexivity|]. intro H.
  destruct (Ascii.eqb c sep) eqn:Hc.
  - apply Ascii.eqb_eq in Hc. tauto.
  - rewrite IH by tauto. reflexivity.
Qed.

Lemma split_app (sep : ascii) (a rest : string) :
  ~ In sep (list_ascii_of_string a) ->
  JS.split sep (a ++ String sep rest) = a :: JS.split sep rest.
Proof.
  induction a as [|c a IH]; cbn.
  - intros _. now rewrite Ascii.eqb_refl.
  - intro H. destruct (Ascii.eqb c sep) eqn:Hc.
    + apply Ascii.eqb_eq in Hc. tauto.
    + rewrite IH by tauto. reflexivity.
Qed.

(** ** The parse of the reply *)

Lemma comma_is_not_whitespace : JS.isWhiteSpace ","%char = false.
Proof. reflexivity. Qed.

Lemma trimmed_pieces_are_candidates (s : string) :
  Forall candidate (filter JS.truthy (map JS.trim (JS.split "," s))).
Proof.
  apply Forall_forall. intros c Hc. apply filter_In in Hc as [Hin Htruthy].
  apply in_map_iff in Hin as [piece [<- Hpiece]].
  split; [exact Htruthy|]. split; [apply trim_idempotent|].
  intro Hcomma. apply trim_chars in Hcomma. now apply (split_pieces _ _ _ Hpiece).
Qed.

Lemma parse_alternatives_candidates (rawResponse : string) :
  Forall candidate (parse_alternatives rawResponse).
Proof.
  unfold parse_alternatives.
  destruct (_ && _); [apply trimmed_pieces_are_candidates | constructor].
Qed.

Lemma top3_candidates (rawResponse : string) :
  Forall candidate (JS.slice0 3 (parse_alternatives rawResponse)).
Proof.
  apply Forall_forall. intros c Hc. apply In_slice0 in Hc.
  revert c Hc. apply Forall_forall, parse_alternatives_candidates.
Qed.

(** X1.  Every candidate read from a reply is a non-empty, trimmed name without
    a comma, and at most three are kept. *)
Theorem parsed_candidates_are_clean_names (rawResponse : string) :
  Forall candidate (parse_alternatives rawResponse) /\
  Forall candidate (JS.slice0 3 (parse_alternatives rawResponse)) /\
  (length (JS.slice0 3 (parse_alternatives rawResponse)) <= 3)%nat.
Proof.
  split; [apply parse_alternatives_candidates|].
  split; [apply top3_candidates | apply top3_short].
Qed.

Lemma split_space (s : string) :
  JS.split "," (String " " s) =
  match JS.split "," s with
  | h :: t => String " " h :: t
  | [] => [String " " EmptyString]
  end.
Proof. reflexivity. Qed.

Lemma split_joined (names : list string) (first : string) :
  Forall comma_free (first :: names) ->
  JS.split "," (JS.join ", " (first :: names)) =
  first :: map (fun n => String " " n) names.
Proof.
  revert first. induction names as [|second names IH]; intros first Hfree.
  - cbn. apply split_whole. now inversion Hfree.
  - inversion Hfree as [|? ? Hfirst Hrest]; subst.
    change (JS.join ", " (first :: second :: names))
      with (first ++ String "," (String " " (JS.join ", " (second :: names))))%string.
    rewrite split_app by exact Hfirst. rewrite split_space, IH by exact Hrest.
    reflexivity.
Qed.

Lemma trim_space (s : string) : JS.trim (String " " s) = JS.trim s.
Proof. reflexivity. Qed.

Lemma filter_all {A : Type} (f : A -> bool) (l : list A) :
  Forall (fun x => f x = true) l -> filter f l = l.
Proof.
  induction 1 as [|x l Hx _ IH]; [reflexivity|]. cbn. now rewrite Hx, IH.
Qed.

(** X2.  A list of clean names written with [", "] between them is read back as
    it was, unless the text is the token [none]. *)
Theorem reply_of_joined_names_is_read_back (names : list string) :
  Forall candidate names ->
  JS.toLowerCase (JS.join ", " names) <> "none" ->
  parse_alternatives (JS.join ", " names) = names.
Proof.
  intros Hnames Hnone. destruct names as [|first names]; [reflexivity|].
  unfold parse_alternatives.
  assert (JS.truthy (JS.join ", " (first :: names)) = true) as Htruthy.
  { inversion Hnames as [|? ? [Hfirst _] _]; subst.
    destruct first as [|c first]; [discriminate|]. now destruct names. }
  rewrite Htruthy.
  destruct (String.eqb (JS.toLowerCase (JS.join ", " (first :: names))) "none") eqn:Heq;
    [apply String.eqb_eq in Heq; contradiction|].
  cbn [negb andb]. rewrite split_joined.
  - cbn [map]. rewrite map_map.
    inversion Hnames as [|? ? [Hfirst [Htrim _]] Hrest]; subst.
    rewrite Htrim.
    replace (map (fun n => JS.trim (String " " n)) names) with names.
    + apply filter_all. apply Forall_forall. intros c Hc.
      rewrite Forall_forall in Hnames. now destruct (Hnames c Hc).
    + clear - Hrest. induction Hrest as [|n names [_ [Hn _]] _ IH]; [reflexivity|].
      cbn [map]. rewrite trim_space, Hn. now f_equal.
  - apply Forall_forall. intros c Hc. rewrite Forall_forall in Hnames.
    now destruct (Hnames c Hc) as [_ [_ Hfree]].
Qed.

Lemma reply_of_two_names_is_read_back :
  Forall candidate ["Paracetamol"; "Ibuprofen"] /\
  JS.toLowerCase (JS.join ", " ["Paracetamol"; "Ibuprofen"]) <> "none" /\
  parse_alternatives "Paracetamol, Ibuprofen" = ["Paracetamol"; "Ibuprofen"].
Proof.
  assert (Forall candidate ["Paracetamol"; "Ibuprofen"]) as Hnames.
  { repeat constructor; try reflexivity;
      intro H; cbn in H; repeat (destruct H as [H|H]; [discriminate|]); exact H. }
  assert (JS.toLowerCase (JS.join ", " ["Paracetamol"; "Ibuprofen"]) <> "none") as Hnone
    by discriminate.
  split; [exact Hnames|]. split; [exact Hnone|].
  exact (reply_of_joined_names_is_read_back ["Paracetamol"; "Ibuprofen"] Hnames Hnone).
Defined.

Lemma whitespace_has_no_case (c : ascii) :
  JS.isWhiteSpace c = true -> JS.toLowerChar c = c.
Proof. destruct c as [[] [] [] [] [] [] [] []]; cbn; intro H; congruence. Qed.

Lemma lower_none_is_not_padded (s : string) :
  JS.toLowerCase s = "none" -> JS.trim s = s.
Proof.
  destruct s as [|a [|b [|c [|d [|e s]]]]]; cbn [JS.toLowerCase]; try discriminate.
  intros [= Ha Hb Hc Hd].
  assert (JS.isWhiteSpace a = false) as Hwa.
  { destruct (JS.isWhiteSpace a) eqn:Hw; [|reflexivity].
    rewrite (whitespace_has_no_case a Hw) in Ha. subst a. discriminate. }
  assert (JS.isWhiteSpace d = false) as Hwd.
  { destruct (JS.isWhiteSpace d) eqn:Hw; [|reflexivity].
    rewrite (whitespace_has_no_case d Hw) in Hd. subst d. discriminate. }
  unfold JS.trim. cbn. rewrite Hwa. cbn. now rewrite Hwd.
Qed.

Lemma comma_survives_trim (s : string) :
  In ","%char (list_ascii_of_string s) -> In ","%char (list_ascii_of_string (JS.trim s)).
Proof.
  intro H. unfold JS.trim.
  apply trimEnd_keeps, trimStart_keeps; auto using comma_is_not_whitespace.
Qed.

(** X3.  The token [none] is only recognised alone.  When the reply is the
    token with whitespace around it (a line break after it, say), the
    current revision reads the token itself as the one candidate. *)
Theorem padded_none_is_read_as_a_candidate (rawResponse : string) :
  JS.toLowerCase (JS.trim rawResponse) = "none" ->
  JS.trim rawResponse <> rawResponse ->
  parse_alternatives rawResponse = [JS.trim rawResponse].
Proof.
  intros Hnone Hpadded. unfold parse_alternatives.
  assert (JS.truthy rawResponse = true) as Htruthy
    by (destruct rawResponse; [discriminate | reflexivity]).
  rewrite Htruthy.
  destruct (String.eqb (JS.toLowerCase rawResponse) "none") eqn:Heq.
  { apply String.eqb_eq, lower_none_is_not_padded in Heq. contradiction. }
  cbn [negb andb]. rewrite split_whole.
  - cbn [map filter]. destruct (JS.trim rawResponse); [discriminate | reflexivity].
  - intro Hcomma. apply comma_survives_trim in Hcomma.
    apply (in_map JS.toLowerChar) in Hcomma.
    rewrite <- toLowerCase_chars, Hnone in Hcomma. cbn in Hcomma.
    repeat (destruct Hcomma as [Hcomma|Hcomma]; [discriminate|]). exact Hcomma.
Qed.

Lemma none_with_a_line_break_is_a_candidate :
  JS.toLowerCase (JS.trim ("None" ++ newline)) = "none" /\
  JS.trim ("None" ++ newline) <> ("None" ++ newline)%string /\
  parse_alternatives ("None" ++ newline) = ["None"].
Proof.
  split; [reflexivity|]. split; [discriminate|].
  exact (padded_none_is_read_as_a_candidate ("None" ++ newline) eq_refl
           (fun H => ltac:(discriminate H))).
Defined.

(** ** What the lookups and the loop can return *)

Section Outcomes.
Variable E : environment.

Lemma exact_in_stock_found (name : string) (db : list medicine) (m : medicine) :
  exact_in_stock E name db = Ok (Some m) -> In m db /\ (0 < quantityInStock m)%Z.
Proof.
  rewrite exact_in_stock_eq. destruct (RegExp.construct _ _) as [re|]; [|discriminate].
  intros [= Hfind]. apply find_some in Hfind as [Hin Hok].
  unfold in_stock in Hok. apply andb_prop in Hok as [_ Hstock].
  now apply Z.ltb_lt in Hstock.
Qed.

Lemma exact_in_stock_throws (name : string) (db db' : list medicine) (e : exn) :
  exact_in_stock E name db = Throw e -> exact_in_stock E name db' = Throw e.
Proof.
  rewrite !exact_in_stock_eq. now destruct (RegExp.construct _ _).
Qed.

Lemma check_alternatives_first_throw (name : string) (top3 pre : list string)
      (c : string) (post : list string) (e : exn) :
  forall w,
    (forall x, In x pre -> exact_in_stock E x (collection w) = Ok None) ->
    exact_in_stock E c (collection w) = Throw e ->
    check_alternatives E name top3 (pre ++ c :: post) w =
    (Throw e, mkWorld (collection w) (calls w ++ map lookup_call pre)).
Proof.
  induction pre as [|alt pre IH]; intros w Hmiss Hthrow.
  - cbn [app check_alternatives map]. rewrite lookup_step, Hthrow, app_nil_r.
    now destruct w.
  - cbn [app check_alternatives]. rewrite lookup_step, (Hmiss alt) by now left.
    rewrite IH; [| intros x Hx; apply Hmiss; now right | exact Hthrow].
    cbn. now rewrite <- app_assoc.
Qed.

(** The three ways the loop ends. *)
Lemma check_alternatives_outcome (name : string) (top3 rest : list string) :
  forall w,
    (exists c m, In c rest /\ exact_in_stock E c (collection w) = Ok (Some m) /\
                 fst (check_alternatives E name top3 rest w) = Ok (alternative name m))
    \/ ((forall c, In c rest -> exact_in_stock E c (collection w) = Ok None) /\
        fst (check_alternatives E name top3 rest w) = Ok (unavailable name top3))
    \/ (exists c e, In c rest /\ exact_in_stock E c (collection w) = Throw e /\
                    fst (check_alternatives E name top3 rest w) = Throw e).
Proof.
  induction rest as [|alt rest IH]; intro w.
  - right; left. split; [intros c []|reflexivity].
  - cbn [check_alternatives]. rewrite lookup_step.
    destruct (exact_in_stock E alt (collection w)) as [[m|]|e] eqn:Halt.
    + left. exists alt, m. repeat split; [now left|exact Halt].
    + destruct (IH (logged (lookup_call alt) w)) as [[c [m [Hin [Hc Hr]]]]|[[Hmiss Hr]|[c [e [Hin [Hc Hr]]]]]].
      * left. exists c, m. repeat split; [now right|exact Hc|exact Hr].
      * right; left. split; [|exact Hr]. intros c [<-|Hin]; [exact Halt|now apply Hmiss].
      * right; right. exists c, e. repeat split; [now right|exact Hc|exact Hr].
    + right; right. exists alt, e. repeat split; [now left|exact Halt].
Qed.

Lemma lookups_are_not_generate (names : list string) :
  filter is_generate (map lookup_call names) = [].
Proof. induction names as [|n names IH]; [reflexivity | exact IH]. Qed.

(** Every way [check] ends on a name that passes validation. *)
Lemma check_cases (name : string) (model : option string) (db : list medicine) :
  JS.truthy name = true ->
  let q := mkQuery (Some name) model in
  (exists e, exact_in_stock E name db = Throw e /\
             respond (check E q) db = Some internal_error /\ trace (check E q) db = [])
  \/ (exists m, exact_in_stock E name db = Ok (Some m) /\
                respond (check E q) db = Some (available name m) /\
                trace (check E q) db = [lookup_call name])
  \/ (exact_in_stock E name db = Ok None /\ topFuzzy E db name <> [] /\
      respond (check E q) db = Some (similar name (topFuzzy E db name)) /\
      trace (check E q) db = [lookup_call name; FindAll; FuseSearch name])
  \/ (exact_in_stock E name db = Ok None /\ topFuzzy E db name = [] /\
      JS.includes allowedGeminiModels (modelToUse model) = false /\
      respond (check E q) db = Some invalid_model /\
      trace (check E q) db = [lookup_call name; FindAll; FuseSearch name])
  \/ (exact_in_stock E name db = Ok None /\ topFuzzy E db name = [] /\
      JS.includes allowedGeminiModels (modelToUse model) = true /\
      exists message,
        generateContent E (modelToUse model) (prompt_for name) = ApiError message /\
        respond (check E q) db = Some (gemini_unreachable message) /\
        trace (check E q) db = calls_up_to_gemini name model)
  \/ (exact_in_stock E name db = Ok None /\ topFuzzy E db name = [] /\
      JS.includes allowedGeminiModels (modelToUse model) = true /\
      exists rawResponse,
        generateContent E (modelToUse model) (prompt_for name) = Text rawResponse /\
        (exists n, trace (check E q) db =
                   (calls_up_to_gemini name model
                      ++ map lookup_call
                           (firstn n (JS.slice0 3 (parse_alternatives rawResponse))))%list) /\
        ((exists c m, In c (JS.slice0 3 (parse_alternatives rawResponse)) /\
                      exact_in_stock E c db = Ok (Some m) /\
                      respond (check E q) db = Some (alternative name m))
         \/ ((forall c, In c (JS.slice0 3 (parse_alternatives rawResponse)) ->
                        exact_in_stock E c db = Ok None) /\
             respond (check E q) db =
               Some (unavailable name (JS.slice0 3 (parse_alternatives rawResponse))))
         \/ (exists c e, In c (JS.slice0 3 (parse_alternatives rawResponse)) /\
                         exact_in_stock E c db = Throw e /\
                         respond (check E q) db = Some internal_error))).
Proof.
  intros Hname q. unfold respond, trace, q. rewrite check_run by assumption.
  destruct (exact_in_stock E name db) as [[m|]|e] eqn:Hexact.
  - right; left. exists m. repeat split.
  - destruct (topFuzzy E db name) as [|n0 names] eqn:Hfuzzy.
    + cbn [length Nat.ltb Nat.leb].
      destruct (JS.includes allowedGeminiModels (modelToUse model)) eqn:Hmodel; cbn [negb].
      * destruct (generateContent E (modelToUse model) (prompt_for name))
          as [raw|message] eqn:Hreply.
        -- do 5 right. split; [reflexivity|]. split; [reflexivity|]. split; [reflexivity|].
           exists raw. split; [reflexivity|]. cbv zeta.
           set (top3 := JS.slice0 3 (parse_alternatives raw)).
           set (w := mkWorld db (calls_up_to_gemini name model)).
           destruct (check_alternatives_reads E name top3 top3 w) as [_ [n Hn]].
           pose proof (check_alternatives_outcome name top3 top3 w) as Hout.
           cbn [collection w] in Hout. split.
           ++ exists n. destruct (check_alternatives E name top3 top3 w) as [[r|e] w'];
                exact Hn.
           ++ destruct Hout as [[c [m [Hin [Hc Hr]]]]|[[Hmiss Hr]|[c [e [Hin [Hc Hr]]]]]];
                destruct (check_alternatives E name top3 top3 w) as [[r|e'] w'];
                cbn [fst] in Hr; try discriminate; inversion Hr; subst.
              ** left. now exists c, m.
              ** right; left. now split.
              ** right; right. exists c, e. now repeat split.
        -- do 4 right; left. repeat split. exists message. repeat split.
      * do 3 right; left. repeat split.
    + right; right; left. repeat split. discriminate.
  - left. exists e. repeat split.
Qed.

End Outcomes.

(** ** The answers of [check] *)

(** X4.  [check] always answers, with status 200 exactly when the body is one of
    the four resolutions, and otherwise with 400, 500 or 502. *)
Theorem check_answers_200_exactly_for_resolutions
        (E : environment) (q : check_query) (db : list medicine) :
  exists r,
    respond (check E q) db = Some r /\
    ((status r = 200%nat /\ is_resolution (payload r) = true)
     \/ ((status r = 400%nat \/ status r = 500%nat \/ status r = 502%nat)
         /\ is_resolution (payload r) = false)).
Proof.
  destruct (JS.truthy_opt (q_name q)) eqn:Hname.
  - destruct q as [[name|] model]; [|discriminate]. cbn in Hname.
    destruct (check_cases E name model db Hname)
      as [[e [_ [Hr _]]]|[[m [_ [Hr _]]]|[[_ [_ [Hr _]]]|[[_ [_ [_ [Hr _]]]]
         |[[_ [_ [_ [msg [_ [Hr _]]]]]]|[_ [_ [_ [raw [_ [_ Hr]]]]]]]]]]];
      try (eexists; split; [exact Hr|]; cbn; tauto).
    destruct Hr as [[c [m [_ [_ Hr]]]]|[[_ Hr]|[c [e [_ [_ Hr]]]]]];
      eexists; (split; [exact Hr|]); cbn; tauto.
  - exists name_required. unfold respond. rewrite check_run_no_name by assumption.
    cbn. tauto.
Qed.

(** X5.  One request makes at most one call to Gemini, and a call that is made
    carries a model of the allow-list (the requested one, or the default
    when none is requested) and the prompt built from the queried name. *)
Theorem gemini_is_called_at_most_once_with_an_allowed_model
        (E : environment) (q : check_query) (db : list medicine) :
  (suggester_calls (trace (check E q) db) <= 1)%nat /\
  (forall model prompt,
      In (GenerateContent model prompt) (trace (check E q) db) ->
      JS.includes allowedGeminiModels model = true /\
      model = modelToUse (q_model q) /\
      exists name, q_name q = Some name /\ prompt = prompt_for name).
Proof.
  assert (forall name model n l (c : call),
             In c (calls_up_to_gemini name model ++ map lookup_call (firstn n l)) ->
             is_generate c = true ->
             c = GenerateContent (modelToUse model) (prompt_for name)) as Honly.
  { intros name model n l c Hin Hc. apply in_app_iff in Hin as [Hin|Hin].
    - cbn in Hin. destruct Hin as [<-|[<-|[<-|[<-|[]]]]]; try discriminate. reflexivity.
    - apply in_map_iff in Hin as [x [<- _]]. discriminate. }
  destruct (JS.truthy_opt (q_name q)) eqn:Hname.
  - destruct q as [[name|] model]; [|discriminate]. cbn in Hname. cbn [q_model q_name].
    destruct (check_cases E name model db Hname)
      as [[e [_ [_ Ht]]]|[[m [_ [_ Ht]]]|[[_ [_ [_ Ht]]]|[[_ [_ [_ [_ Ht]]]]
         |[[_ [_ [Hmodel [msg [_ [_ Ht]]]]]]|[_ [_ [Hmodel [raw [_ [[n Ht] _]]]]]]]]]]];
      rewrite Ht;
      try (split; [cbn; lia|];
           intros mo pr Hin; cbn in Hin;
           repeat (destruct Hin as [Hin|Hin]; [discriminate Hin|]); now destruct Hin).
    + split; [cbn; lia|]. intros mo pr Hin.
      assert (In (GenerateContent mo pr)
                 (calls_up_to_gemini name model ++ map lookup_call (firstn 0 []))) as Hin'
        by (cbn [firstn map]; now rewrite app_nil_r).
      pose proof (Honly name model 0%nat [] _ Hin' eq_refl) as Heq.
      injection Heq as -> ->. split; [exact Hmodel|]. split; [reflexivity|]. now exists name.
    + split.
      * unfold suggester_calls. rewrite filter_app, lookups_are_not_generate. cbn. lia.
      * intros mo pr Hin. pose proof (Honly name model n _ _ Hin eq_refl) as Heq.
        injection Heq as -> ->. split; [exact Hmodel|]. split; [reflexivity|].
        now exists name.
  - unfold trace. rewrite check_run_no_name by assumption. cbn.
    split; [lia | intros ? ? []].
Qed.

(** X6.  A record handed out as available, by the exact stage or as an
    alternative, is a record of the collection with a positive stock. *)
Theorem available_records_are_in_stock
        (E : environment) (q : check_query) (db : list medicine) (r : response) :
  respond (check E q) db = Some r ->
  match payload r with
  | available_locally _ m | alternative_available_locally _ m _ =>
      In m db /\ (0 < quantityInStock m)%Z
  | _ => True
  end.
Proof.
  intro Hrespond. destruct (JS.truthy_opt (q_name q)) eqn:Hname.
  - destruct q as [[name|] model]; [|discriminate]. cbn in Hname.
    destruct (check_cases E name model db Hname)
      as [[e [_ [Hr _]]]|[[m [Hm [Hr _]]]|[[_ [_ [Hr _]]]|[[_ [_ [_ [Hr _]]]]
         |[[_ [_ [_ [msg [_ [Hr _]]]]]]|[_ [_ [_ [raw [_ [_ Hr]]]]]]]]]]].
    1,3,4,5: rewrite Hr in Hrespond; injection Hrespond as <-; exact I.
    + rewrite Hr in Hrespond. injection Hrespond as <-. cbn.
      exact (exact_in_stock_found E name db m Hm).
    + destruct Hr as [[c [m [_ [Hm Hr]]]]|[[_ Hr]|[c [e [_ [_ Hr]]]]]];
        rewrite Hr in Hrespond; injection Hrespond as <-; cbn; try exact I.
      exact (exact_in_stock_found E c db m Hm).
  - unfold respond in Hrespond. rewrite check_run_no_name in Hrespond by assumption.
    injection Hrespond as <-. exact I.
Qed.

Lemma available_record_of_ibuprofen :
  respond (check (stub (Text "Paracetamol, Ibuprofen")) (mkQuery (Some "Tylenol") None))
          [med "Ibuprofen" 5] = Some (alternative "Tylenol" (med "Ibuprofen" 5)) /\
  In (med "Ibuprofen" 5) [med "Ibuprofen" 5] /\
  (0 < quantityInStock (med "Ibuprofen" 5))%Z.
Proof.
  split; [reflexivity|].
  exact (available_records_are_in_stock
           (stub (Text "Paracetamol, Ibuprofen")) (mkQuery (Some "Tylenol") None)
           [med "Ibuprofen" 5] (alternative "Tylenol" (med "Ibuprofen" 5)) eq_refl).
Defined.

Lemma topFuzzy_nil (E : environment) (db : list medicine) (name : string) :
  topFuzzy E db name = [] -> Fuse.search E db name = [].
Proof.
  unfold topFuzzy, JS.slice0. destruct (Fuse.search E db name); [reflexivity|discriminate].
Qed.

(** X7.  The answer [not_available_anywhere] is only given when everything
    missed: the exact lookup of the queried name, the fuzzy search, and the
    exact lookup of every listed candidate; the list holds at most three
    clean names. *)
Theorem unavailable_answer_lists_the_missed_candidates
        (E : environment) (q : check_query) (db : list medicine)
        (message : string) (suggestions : list string) (disclaimer : string) :
  respond (check E q) db =
    Some (json (not_available_anywhere message suggestions disclaimer)) ->
  (length suggestions <= 3)%nat /\
  Forall candidate suggestions /\
  (forall c, In c suggestions -> exact_in_stock E c db = Ok None) /\
  disclaimer = unavailable_disclaimer /\
  exists name,
    q_name q = Some name /\ JS.truthy name = true /\
    exact_in_stock E name db = Ok None /\ Fuse.search E db name = [].
Proof.
  intro Hrespond. destruct (JS.truthy_opt (q_name q)) eqn:Hname.
  - destruct q as [[name|] model]; [|discriminate]. cbn in Hname.
    destruct (check_cases E name model db Hname)
      as [[e [_ [Hr _]]]|[[m [_ [Hr _]]]|[[_ [_ [Hr _]]]|[[_ [_ [_ [Hr _]]]]
         |[[_ [_ [_ [msg [_ [Hr _]]]]]]|[Hexact [Hfuzzy [_ [raw [_ [_ Hr]]]]]]]]]]];
      try (rewrite Hr in Hrespond; discriminate Hrespond).
    destruct Hr as [[c [m [_ [_ Hr]]]]|[[Hmiss Hr]|[c [e [_ [_ Hr]]]]]];
      rewrite Hr in Hrespond; try discriminate Hrespond.
    injection Hrespond as _ <- <-.
    split; [apply top3_short|]. split; [apply top3_candidates|].
    split; [exact Hmiss|]. split; [reflexivity|].
    exists name. repeat split; try assumption. now apply topFuzzy_nil.
  - unfold respond in Hrespond. rewrite check_run_no_name in Hrespond by assumption.
    discriminate Hrespond.
Qed.

Lemma unavailable_answer_for_tylenol :
  respond (check (stub (Text "Paracetamol, Ibuprofen")) (mkQuery (Some "Tylenol") None)) [] =
    Some (json (not_available_anywhere
                  "'Tylenol' is not in local stock. Gemini suggestions were checked but none are in stock."
                  ["Paracetamol"; "Ibuprofen"] unavailable_disclaimer)) /\
  (forall c, In c ["Paracetamol"; "Ibuprofen"] ->
             exact_in_stock (stub (Text "Paracetamol, Ibuprofen")) c [] = Ok None).
Proof.
  split; [reflexivity|].
  exact (proj1 (proj2 (proj2 (unavailable_answer_lists_the_missed_candidates
                                (stub (Text "Paracetamol, Ibuprofen"))
                                (mkQuery (Some "Tylenol") None) [] _ _ _ eq_refl)))).
Defined.

Lemma numbered_covers (docs : list medicine) (d : medicine) :
  In d docs -> forall i, exists j, In (j, d) (Fuse.numbered i docs).
Proof.
  induction docs as [|x docs IH]; [intros []|]. intros [->|Hin] i.
  - exists i. now left.
  - destruct (IH Hin (S i)) as [j Hj]. exists j. now right.
Qed.

(** Fuse finds a non-blank name that is the pattern up to case. *)
Lemma search_finds_same_name (E : environment) (db : list medicine) (name : string)
      (r : medicine) :
  In r db ->
  same_ignoring_case (tabletName r) name ->
  Fuse.isBlank (tabletName r) = false ->
  Fuse.search E db name <> [].
Proof.
  intros Hin Hsame Hblank.
  destruct (numbered_covers db r Hin 0%nat) as [j Hj].
  assert (In (Fuse.mkResult r j (computeScore E 0%Q (tabletName r)))
             (Fuse.search E db name)) as Hfound.
  { unfold Fuse.search. apply sort_In. unfold Fuse.searchObjectList.
    apply in_flat_map. exists (j, r). split.
    - unfold Fuse.records. apply filter_In. split; [exact Hj|]. cbn. now rewrite Hblank.
    - cbn [fst snd]. unfold Fuse.searchIn. unfold same_ignoring_case in Hsame.
      rewrite Hsame, String.eqb_refl. now left. }
  intro Hnil. now rewrite Hnil in Hfound.
Qed.

(** X8.  A query that names a record of the collection up to letter case never
    leads to a call to Gemini, whatever the stock of that record: the
    answer is [available_locally], [not_found_but_similar_exist], or the 500
    error when the name does not parse as a pattern. *)
Theorem catalog_names_never_reach_gemini
        (E : environment) (name : string) (model : option string)
        (db : list medicine) (r : medicine) :
  JS.truthy name = true ->
  In r db ->
  same_ignoring_case (tabletName r) name ->
  Fuse.isBlank (tabletName r) = false ->
  suggester_calls (trace (check E (mkQuery (Some name) model)) db) = 0%nat /\
  ((exists m, respond (check E (mkQuery (Some name) model)) db = Some (available name m))
   \/ respond (check E (mkQuery (Some name) model)) db =
        Some (similar name (topFuzzy E db name))
   \/ respond (check E (mkQuery (Some name) model)) db = Some internal_error).
Proof.
  intros Hname Hin Hsame Hblank.
  pose proof (search_finds_same_name E db name r Hin Hsame Hblank) as Hfound.
  destruct (check_cases E name model db Hname)
    as [[e [_ [Hr Ht]]]|[[m [_ [Hr Ht]]]|[[_ [_ [Hr Ht]]]|[[_ [Hfuzzy _]]
       |[[_ [Hfuzzy _]]|[_ [Hfuzzy _]]]]]]];
    try (apply topFuzzy_nil in Hfuzzy; contradiction);
    rewrite Ht; (split; [reflexivity|]); eauto.
Qed.

Lemma out_of_stock_paracetamol_never_reaches_gemini :
  In (med "Paracetamol" 0) [med "Ibuprofen" 5; med "Paracetamol" 0] /\
  same_ignoring_case (tabletName (med "Paracetamol" 0)) "PARACETAMOL" /\
  suggester_calls
    (trace (check (stub (Text "Ibuprofen")) (mkQuery (Some "PARACETAMOL") None))
           [med "Ibuprofen" 5; med "Paracetamol" 0]) = 0%nat.
Proof.
  split; [right; now left|]. split; [reflexivity|].
  exact (proj1 (catalog_names_never_reach_gemini
                  (stub (Text "Ibuprofen")) "PARACETAMOL" None
                  [med "Ibuprofen" 5; med "Paracetamol" 0] (med "Paracetamol" 0)
                  eq_refl (or_intror (or_introl eq_refl)) eq_refl eq_refl)).
Defined.

(** ** Names that are not patterns *)

Lemma quantifier_first_does_not_parse (c : ascii) (rest : string) :
  is_quantifier c = true ->
  RegExp.parse (list_ascii_of_string ("^" ++ String c rest ++ "$")) RegExp.empty_frame [] = None.
Proof.
  unfold is_quantifier. intro Hc.
  apply orb_prop in Hc as [Hc|Hc]; [apply orb_prop in Hc as [Hc|Hc]|];
    apply Ascii.eqb_eq in Hc; subst c; reflexivity.
Qed.

(** X9.  A name that starts with [*], [+] or [?] (and uses no construct outside
    the modelled patterns) makes the constructor throw: the answer is the
    500 error, and neither the collection nor Gemini is consulted. *)
Theorem name_starting_with_a_quantifier_is_an_internal_error
        (E : environment) (c : ascii) (rest : string) (model : option string)
        (db : list medicine) :
  is_quantifier c = true ->
  RegExp.in_fragment (list_ascii_of_string ("^" ++ String c rest ++ "$")) = true ->
  exact_in_stock E (String c rest) db = Throw SyntaxError /\
  respond (check E (mkQuery (Some (String c rest)) model)) db = Some internal_error /\
  trace (check E (mkQuery (Some (String c rest)) model)) db = [].
Proof.
  intros Hc Hfragment.
  assert (exact_in_stock E (String c rest) db = Throw SyntaxError) as Hthrow.
  { rewrite exact_in_stock_eq. unfold RegExp.construct.
    now rewrite Hfragment, quantifier_first_does_not_parse. }
  split; [exact Hthrow|]. unfold respond, trace.
  rewrite check_run, Hthrow by reflexivity. split; reflexivity.
Qed.

Lemma plus_b_complex_is_an_internal_error :
  is_quantifier "+" = true /\
  respond (check (stub (Text "none")) (mkQuery (Some "+B complex") None))
          [med "+B complex" 3] = Some internal_error /\
  trace (check (stub (Text "none")) (mkQuery (Some "+B complex") None))
        [med "+B complex" 3] = [].
Proof.
  split; [reflexivity|].
  exact (proj2 (name_starting_with_a_quantifier_is_an_internal_error
                  (stub (Text "none")) "+" "B complex" None [med "+B complex" 3]
                  eq_refl eq_refl)).
Defined.

(** X10.  In the loop over the candidates, a candidate that does not parse as a
    pattern ends the request with the 500 error, after the lookups of the
    candidates before it; the candidates after it are never looked up, in
    stock or not. *)
Theorem candidate_that_does_not_parse_is_an_internal_error
        (E : environment) (name : string) (model : option string)
        (db : list medicine) (rawResponse : string)
        (pre : list string) (c : string) (post : list string) (e : exn) :
  reaches_gemini E name model db ->
  generateContent E (modelToUse model) (prompt_for name) = Text rawResponse ->
  JS.slice0 3 (parse_alternatives rawResponse) = (pre ++ c :: post)%list ->
  (forall x, In x pre -> exact_in_stock E x db = Ok None) ->
  exact_in_stock E c db = Throw e ->
  respond (check E (mkQuery (Some name) model)) db = Some internal_error /\
  trace (check E (mkQuery (Some name) model)) db =
    (calls_up_to_gemini name model ++ map lookup_call pre)%list.
Proof.
  intros [Hname [Hexact [Hfuzzy Hmodel]]] Hreply Htop Hmiss Hthrow.
  unfold respond, trace.
  rewrite check_run, Hexact, (topFuzzy_empty E db name Hfuzzy), Hmodel, Hreply
    by assumption.
  cbn [negb]. cbv zeta.
  replace (check_alternatives E name (JS.slice0 3 (parse_alternatives rawResponse))
             (JS.slice0 3 (parse_alternatives rawResponse)))
    with (check_alternatives E name (JS.slice0 3 (parse_alternatives rawResponse))
            (pre ++ c :: post)) by now rewrite <- Htop.
  rewrite (check_alternatives_first_throw E name _ pre c post e) by assumption.
  split; reflexivity.
Qed.

Lemma candidate_with_an_open_parenthesis :
  let E := stub (Text "Paracetamol, Tylenol (acetaminophen, Ibuprofen") in
  let db := [med "Ibuprofen" 5] in
  reaches_gemini E "Crocin" None db /\
  JS.slice0 3 (parse_alternatives "Paracetamol, Tylenol (acetaminophen, Ibuprofen") =
    ["Paracetamol"; "Tylenol (acetaminophen"; "Ibuprofen"] /\
  exact_in_stock E "Tylenol (acetaminophen" db = Throw SyntaxError /\
  respond (check E (mkQuery (Some "Crocin") None)) db = Some internal_error /\
  trace (check E (mkQuery (Some "Crocin") None)) db =
    (calls_up_to_gemini "Crocin" None ++ [lookup_call "Paracetamol"])%list.
Proof.
  cbv zeta.
  assert (reaches_gemini (stub (Text "Paracetamol, Tylenol (acetaminophen, Ibuprofen"))
                         "Crocin" None [med "Ibuprofen" 5]) as Hreach
    by (repeat split; reflexivity).
  split; [exact Hreach|]. split; [reflexivity|]. split; [reflexivity|].
  apply (candidate_that_does_not_parse_is_an_internal_error
           (stub (Text "Paracetamol, Tylenol (acetaminophen, Ibuprofen")) "Crocin" None
           [med "Ibuprofen" 5] "Paracetamol, Tylenol (acetaminophen, Ibuprofen"
           ["Paracetamol"] "Tylenol (acetaminophen" ["Ibuprofen"] SyntaxError Hreach);
    try reflexivity.
  intros x [<-|[]]. reflexivity.
Defined.

(** ** The default model *)

(** X11.  A request that names no model, or an empty one, is served with the
    default model, which is on the allow-list: it never gets the
    invalid-model answer, and a call to Gemini it makes uses the default. *)
Theorem request_without_model_uses_the_default
        (E : environment) (name model : option string) (db : list medicine) :
  JS.truthy_opt model = false ->
  respond (check E (mkQuery name model)) db <> Some invalid_model /\
  (forall m prompt,
      In (GenerateContent m prompt) (trace (check E (mkQuery name model)) db) ->
      m = defaultGeminiModel).
Proof.
  intro Hmodel.
  assert (modelToUse model = defaultGeminiModel) as Huse
    by (unfold modelToUse; now rewrite Hmodel).
  destruct (JS.truthy_opt name) eqn:Hname.
  - destruct name as [n|]; [|discriminate]. cbn in Hname.
    destruct (check_cases E n model db Hname)
      as [[e [_ [Hr Ht]]]|[[m [_ [Hr Ht]]]|[[_ [_ [Hr Ht]]]|[[_ [_ [Hbad _]]]
         |[[_ [_ [_ [msg [_ [Hr Ht]]]]]]|[_ [_ [_ [raw [_ [[k Ht] Hr]]]]]]]]]]].
    1,2,3: rewrite Hr, Ht; split; [discriminate|];
      intros m0 p Hin; cbn in Hin;
      repeat (destruct Hin as [Hin|Hin]; [discriminate Hin|]); now destruct Hin.
    + rewrite Huse in Hbad. discriminate Hbad.
    + rewrite Hr, Ht. split; [discriminate|]. intros m0 p Hin. cbn in Hin.
      repeat (destruct Hin as [Hin|Hin]; [try discriminate Hin|]); [|now destruct Hin].
      injection Hin as <- _. exact Huse.
    + split.
      * destruct Hr as [[c [m [_ [_ Hr]]]]|[[_ Hr]|[c [e [_ [_ Hr]]]]]];
          rewrite Hr; discriminate.
      * rewrite Ht. intros m0 p Hin. apply in_app_iff in Hin as [Hin|Hin].
        -- cbn in Hin.
           repeat (destruct Hin as [Hin|Hin]; [try discriminate Hin|]); [|now destruct Hin].
           injection Hin as <- _. exact Huse.
        -- apply in_map_iff in Hin as [x [Hx _]]. discriminate Hx.
  - unfold respond, trace. rewrite check_run_no_name by assumption.
    split; [discriminate | intros ? ? []].
Qed.

Lemma aspirin_without_model_uses_the_default :
  JS.truthy_opt (Some "") = false /\
  respond (check (stub (Text "none")) (mkQuery (Some "Aspirin") (Some ""))) [] <>
    Some invalid_model /\
  In (GenerateContent defaultGeminiModel (prompt_for "Aspirin"))
     (trace (check (stub (Text "none")) (mkQuery (Some "Aspirin") (Some ""))) []).
Proof.
  split; [reflexivity|].
  split; [|do 3 right; now left].
  exact (proj1 (request_without_model_uses_the_default
                  (stub (Text "none")) (Some "Aspirin") (Some "") [] eq_refl)).
Defined.

(** ** The answers of [add] *)

Lemma validate_fields (now : Z) (b : add_request) (doc : medicine) :
  validate (new_Medicine now b) = Some doc ->
  option_map JS.trim (b_tabletName b) = Some (tabletName doc) /\
  b_quantityInStock b = Some (quantityInStock doc) /\
  b_price b = Some (price doc) /\
  createdAt doc = now /\
  valid_doc doc.
Proof.
  unfold validate, new_Medicine. cbn.
  destruct (b_tabletName b) as [name|]; cbn; [|discriminate].
  destruct (b_quantityInStock b) as [q|]; [|discriminate].
  destruct (b_price b) as [p|]; [|discriminate].
  destruct (JS.truthy (JS.trim name)) eqn:Hname; [|discriminate].
  destruct (0 <=? q)%Z eqn:Hq; [|discriminate].
  destruct (Qle_bool 0 p) eqn:Hp; [|discriminate].
  cbn. intros [= <-]. cbn. repeat split; try assumption.
  - apply trim_idempotent.
  - now apply Z.leb_le.
  - now apply Qle_bool_iff.
  - destruct (b_dosageFrequency b); cbn; [apply trim_idempotent | exact I].
  - destruct (b_usageInstructions b); cbn; [apply trim_idempotent | exact I].
  - destruct (b_foodWarnings b); cbn; [apply trim_idempotent | exact I].
Qed.

Lemma find_by_name_some (db : list medicine) (n : string) (m : medicine) :
  find (fun x => String.eqb (tabletName x) n) db = Some m -> In m db /\ tabletName m = n.
Proof.
  intro H. apply find_some in H as [Hin Heq]. now apply String.eqb_eq in Heq.
Qed.

Lemma no_such_name (db : list medicine) (n : string) :
  ~ In n (map tabletName db) ->
  existsb (fun m => String.eqb (tabletName m) n) db = false.
Proof.
  intro Hnot. destruct (existsb _ db) eqn:Hex; [|reflexivity].
  apply existsb_exists in Hex as [m [Hin Heq]]. apply String.eqb_eq in Heq.
  exfalso. apply Hnot. rewrite <- Heq. now apply in_map.
Qed.

(** Every way [add] ends. *)
Lemma add_cases (now : Z) (b : add_request) (db : list medicine) :
  (negb (JS.truthy_opt (b_tabletName b)) || is_undefined (b_quantityInStock b) = true /\
   add now b (start db) = (Ok fields_required, start db))
  \/ (exists name,
         b_tabletName b = Some name /\ JS.truthy name = true /\
         is_undefined (b_quantityInStock b) = false /\
         ((exists m, In m db /\ tabletName m = JS.trim name /\
                     add now b (start db) =
                       (Ok (already_exists name), mkWorld db [FindOneByName name]))
          \/ (~ In (JS.trim name) (map tabletName db) /\
              validate (new_Medicine now b) = None /\
              add now b (start db) = (Ok server_error, mkWorld db [FindOneByName name]))
          \/ (exists doc,
                 ~ In (JS.trim name) (map tabletName db) /\
                 validate (new_Medicine now b) = Some doc /\
                 tabletName doc = JS.trim name /\
                 add now b (start db) =
                   (Ok (added name doc),
                    mkWorld (db ++ [doc]) [FindOneByName name; Save doc])))).
Proof.
  destruct (negb (JS.truthy_opt (b_tabletName b)) || is_undefined (b_quantityInStock b))
    eqn:Hin.
  - left. split; [reflexivity | now apply add_run_incomplete].
  - right. apply orb_false_elim in Hin as [Hname Hq]. apply negb_false_iff in Hname.
    destruct (b_tabletName b) as [name|] eqn:Hb; [|discriminate]. cbn in Hname.
    exists name. repeat split; try assumption.
    rewrite (add_run now b name db Hb Hname Hq).
    destruct (find _ db) as [m|] eqn:Hfind.
    + left. apply find_by_name_some in Hfind as [Hm Heq]. now exists m.
    + right. apply find_by_name_none in Hfind.
      destruct (validate (new_Medicine now b)) as [doc|] eqn:Hdoc; [right|left; now split].
      pose proof (validate_name now b name doc Hb Hdoc) as Hn.
      exists doc. rewrite Hn, (no_such_name db (JS.trim name) Hfind). now repeat split.
Qed.

(** X12.  [add] always answers, and the collection changes exactly when the
    answer is 201: then one document is appended, with the trimmed name, the
    quantity and the price of the request, and every document already
    stored is kept as it was; with 400 or 500 nothing is stored. *)
Theorem add_stores_exactly_when_it_answers_201
        (now : Z) (b : add_request) (db : list medicine) :
  exists r,
    respond (add now b) db = Some r /\
    ((status r = 201%nat /\
      exists name doc,
        b_tabletName b = Some name /\
        r = added name doc /\
        stored (add now b) db = (db ++ [doc])%list /\
        tabletName doc = JS.trim name /\
        b_quantityInStock b = Some (quantityInStock doc) /\
        b_price b = Some (price doc) /\
        createdAt doc = now)
     \/ ((status r = 400%nat \/ status r = 500%nat) /\ stored (add now b) db = db)).
Proof.
  unfold respond, stored.
  destruct (add_cases now b db)
    as [[_ Hrun]|[name [Hb [_ [_ [[m [_ [_ Hrun]]]|[[_ [_ Hrun]]|[doc [_ [Hdoc [Hn Hrun]]]]]]]]]]];
    rewrite Hrun; eexists; (split; [reflexivity|]); cbn; try tauto.
  left. split; [reflexivity|]. exists name, doc.
  destruct (validate_fields now b doc Hdoc) as [_ [Hq [Hp [Hc _]]]].
  now repeat split.
Qed.

(** X13.  [add] keeps the collection within the schema: when every stored
    document has a non-empty trimmed name, a quantity and a price that are
    not negative and trimmed texts, the same holds after the request. *)
Theorem add_keeps_the_collection_valid
        (now : Z) (b : add_request) (db : list medicine) :
  Forall valid_doc db -> Forall valid_doc (stored (add now b) db).
Proof.
  intro Hvalid. unfold stored.
  destruct (add_cases now b db)
    as [[_ Hrun]|[name [_ [_ [_ [[m [_ [_ Hrun]]]|[[_ [_ Hrun]]|[doc [_ [Hdoc [_ Hrun]]]]]]]]]]];
    rewrite Hrun; cbn [snd collection]; try exact Hvalid.
  apply Forall_app. split; [exact Hvalid|]. constructor; [|constructor].
  now destruct (validate_fields now b doc Hdoc) as [_ [_ [_ [_ Hok]]]].
Qed.

Lemma add_keeps_a_valid_collection_valid :
  let b := mkAdd (Some "  Ibuprofen ") (Some 5%Z) (Some (5 # 2)) (Some " twice a day ") None None in
  Forall valid_doc [med "Paracetamol" 10] /\
  stored (add 7 b) [med "Paracetamol" 10] =
    [med "Paracetamol" 10;
     mkMedicine "Ibuprofen" 5 (5 # 2) (Some "twice a day") None None 7] /\
  Forall valid_doc (stored (add 7 b) [med "Paracetamol" 10]).
Proof.
  cbv zeta.
  assert (Forall valid_doc [med "Paracetamol" 10]) as Hvalid.
  { repeat constructor; try reflexivity; cbn; discriminate. }
  split; [exact Hvalid|]. split; [reflexivity|].
  exact (add_keeps_the_collection_valid 7
           (mkAdd (Some "  Ibuprofen ") (Some 5%Z) (Some (5 # 2)) (Some " twice a day ")
                  None None)
           [med "Paracetamol" 10] Hvalid).
Defined.

Lemma add_accepted (now : Z) (b : add_request) (db : list medicine) (r : response) :
  respond (add now b) db = Some r ->
  status r = 201%nat ->
  exists name doc,
    b_tabletName b = Some name /\ JS.truthy name = true /\
    is_undefined (b_quantityInStock b) = false /\
    validate (new_Medicine now b) = Some doc /\
    tabletName doc = JS.trim name /\
    r = added name doc /\
    stored (add now b) db = (db ++ [doc])%list.
Proof.
  unfold respond, stored. intros Hr Hstatus.
  destruct (add_cases now b db)
    as [[_ Hrun]|[name [Hb [Hname [Hq [[m [_ [_ Hrun]]]|[[_ [_ Hrun]]|[doc [_ [Hdoc [Hn Hrun]]]]]]]]]]];
    rewrite Hrun in *; cbn in Hr; injection Hr as <-; try discriminate Hstatus.
  exists name, doc. now repeat split.
Qed.

(** X14.  A request that was answered 201 is answered 400 (already exists) when
    it is sent again, whenever that is, and the second request stores
    nothing. *)
Theorem add_twice_is_rejected
        (now later : Z) (b : add_request) (db : list medicine) (r : response) :
  respond (add now b) db = Some r ->
  status r = 201%nat ->
  exists name,
    b_tabletName b = Some name /\
    respond (add later b) (stored (add now b) db) = Some (already_exists name) /\
    stored (add later b) (stored (add now b) db) = stored (add now b) db.
Proof.
  intros Hr Hstatus.
  destruct (add_accepted now b db r Hr Hstatus)
    as [name [doc [Hb [Hname [Hq [_ [Hn [_ Hstored]]]]]]]].
  exists name. split; [exact Hb|]. rewrite Hstored. unfold respond, stored.
  assert (In (JS.trim name) (map tabletName (db ++ [doc]))) as Hin.
  { rewrite map_app. apply in_or_app. right. left. exact Hn. }
  destruct (add_cases later b (db ++ [doc]))
    as [[Hbad _]|[name' [Hb' [_ [_ [[m [_ [_ Hrun]]]|[[Hnot _]|[doc' [Hnot _]]]]]]]]].
  - rewrite Hb, Hq in Hbad. cbn in Hbad. rewrite Hname in Hbad. discriminate.
  - rewrite Hb in Hb'. injection Hb' as <-. rewrite Hrun. split; reflexivity.
  - rewrite Hb in Hb'. injection Hb' as <-. contradiction.
  - rewrite Hb in Hb'. injection Hb' as <-. contradiction.
Qed.

Lemma ibuprofen_added_twice :
  let b := mkAdd (Some "Ibuprofen") (Some 5%Z) (Some 2%Q) None None None in
  respond (add 7 b) [med "Paracetamol" 10] =
    Some (added "Ibuprofen" (mkMedicine "Ibuprofen" 5 2 None None None 7)) /\
  respond (add 8 b) (stored (add 7 b) [med "Paracetamol" 10]) =
    Some (already_exists "Ibuprofen") /\
  stored (add 8 b) (stored (add 7 b) [med "Paracetamol" 10]) =
    stored (add 7 b) [med "Paracetamol" 10].
Proof.
  cbv zeta. split; [reflexivity|].
  destruct (add_twice_is_rejected 7 8
              (mkAdd (Some "Ibuprofen") (Some 5%Z) (Some 2%Q) None None None)
              [med "Paracetamol" 10] _ eq_refl eq_refl) as [name [Hname Hsecond]].
  injection Hname as <-. exact Hsecond.
Defined.

(** X15.  A medicine added with a positive quantity is found by [check]: when
    [add] answered 201, a query for the stored (trimmed) name in any letter
    case, free of metacharacters, is answered [available_locally] with a
    record of that name in stock, after a single lookup. *)
Theorem added_medicine_is_found_by_check
        (E : environment) (now : Z) (b : add_request) (db : list medicine)
        (r : response) (name : string) (q : Z) (query : string) (model : option string) :
  respond (add now b) db = Some r ->
  status r = 201%nat ->
  b_tabletName b = Some name ->
  b_quantityInStock b = Some q ->
  (0 < q)%Z ->
  JS.truthy query = true ->
  RegExp.literal query = true ->
  same_ignoring_case query (JS.trim name) ->
  exists m,
    respond (check E (mkQuery (Some query) model)) (stored (add now b) db) =
      Some (available query m) /\
    same_ignoring_case (tabletName m) query /\
    (0 < quantityInStock m)%Z /\
    trace (check E (mkQuery (Some query) model)) (stored (add now b) db) =
      [lookup_call query].
Proof.
  intros Hr Hstatus Hb Hq Hpos Hquery Hliteral Hsame.
  destruct (add_accepted now b db r Hr Hstatus)
    as [name' [doc [Hb' [_ [_ [Hdoc [Hn [_ Hstored]]]]]]]].
  rewrite Hb in Hb'. injection Hb' as <-.
  destruct (validate_fields now b doc Hdoc) as [_ [Hq' _]].
  rewrite Hq in Hq'. injection Hq' as Hq'.
  destruct (exact_hit_for_literal_name E query model (stored (add now b) db) doc)
    as [m [Hanswer [_ [Hm [Hstock Htrace]]]]]; try assumption.
  - rewrite Hstored. apply in_or_app. right. now left.
  - unfold same_ignoring_case in *. now rewrite Hn.
  - now rewrite <- Hq'.
  - now exists m.
Qed.

Lemma ibuprofen_added_then_checked :
  let b := mkAdd (Some " Ibuprofen ") (Some 5%Z) (Some 2%Q) None None None in
  respond (add 7 b) [med "Paracetamol" 10] =
    Some (added " Ibuprofen " (mkMedicine "Ibuprofen" 5 2 None None None 7)) /\
  same_ignoring_case "IBUPROFEN" (JS.trim " Ibuprofen ") /\
  exists m,
    respond (check (stub (Text "none")) (mkQuery (Some "IBUPROFEN") None))
            (stored (add 7 b) [med "Paracetamol" 10]) = Some (available "IBUPROFEN" m) /\
    same_ignoring_case (tabletName m) "IBUPROFEN" /\
    (0 < quantityInStock m)%Z /\
    trace (check (stub (Text "none")) (mkQuery (Some "IBUPROFEN") None))
          (stored (add 7 b) [med "Paracetamol" 10]) = [lookup_call "IBUPROFEN"].
Proof.
  cbv zeta. split; [reflexivity|]. split; [reflexivity|].
  exact (added_medicine_is_found_by_check
           (stub (Text "none")) 7
           (mkAdd (Some " Ibuprofen ") (Some 5%Z) (Some 2%Q) None None None)
           [med "Paracetamol" 10] _ " Ibuprofen " 5 "IBUPROFEN" None
           eq_refl eq_refl eq_refl eq_refl eq_refl eq_refl eq_refl eq_refl).
Defined.

(** X16.  A request with a name and a quantity that the schema refuses (a name
    of whitespace only, a negative quantity, a missing or negative price) is
    answered 500 [Server Error], not 400, after the lookup by name, and
    stores nothing. *)
Theorem add_refused_by_the_schema_is_a_server_error
        (now : Z) (b : add_request) (db : list medicine) (name : string) (q : Z) :
  b_tabletName b = Some name ->
  JS.truthy name = true ->
  b_quantityInStock b = Some q ->
  ~ In (JS.trim name) (map tabletName db) ->
  (JS.trim name = "" \/ (q < 0)%Z \/ b_price b = None
   \/ exists p, b_price b = Some p /\ (p < 0)%Q) ->
  respond (add now b) db = Some server_error /\
  status server_error = 500%nat /\
  stored (add now b) db = db /\
  trace (add now b) db = [FindOneByName name].
Proof.
  intros Hb Hname Hq Hnew Hbad.
  assert (validate (new_Medicine now b) = None) as Hinvalid.
  { unfold validate, new_Medicine. cbn. rewrite Hb, Hq. cbn.
    destruct (b_price b) as [p|]; [|reflexivity].
    destruct Hbad as [Hblank|[Hneg|[Hnone|[p' [Hp Hneg]]]]].
    - now rewrite Hblank.
    - apply Z.leb_gt in Hneg. rewrite Hneg. now rewrite andb_false_r.
    - discriminate.
    - injection Hp as <-. destruct (Qle_bool 0 p) eqn:Hle.
      + apply Qle_bool_iff in Hle. exfalso. exact (Qlt_not_le _ _ Hneg Hle).
      + now rewrite andb_false_r. }
  unfold respond, stored, trace.
  rewrite (add_run now b name db Hb Hname) by now rewrite Hq.
  destruct (find _ db) as [m|] eqn:Hfind.
  - apply find_by_name_some in Hfind as [Hin Heq]. exfalso. apply Hnew.
    rewrite <- Heq. now apply in_map.
  - rewrite Hinvalid. now repeat split.
Qed.

Lemma negative_quantity_is_a_server_error :
  let b := mkAdd (Some "Ibuprofen") (Some (-1)%Z) (Some 2%Q) None None None in
  ~ In (JS.trim "Ibuprofen") (map tabletName [med "Paracetamol" 10]) /\
  respond (add 7 b) [med "Paracetamol" 10] = Some server_error /\
  stored (add 7 b) [med "Paracetamol" 10] = [med "Paracetamol" 10].
Proof.
  cbv zeta.
  assert (~ In (JS.trim "Ibuprofen") (map tabletName [med "Paracetamol" 10])) as Hnew
    by (intros [H|[]]; discriminate H).
  split; [exact Hnew|].
  destruct (add_refused_by_the_schema_is_a_server_error 7
              (mkAdd (Some "Ibuprofen") (Some (-1)%Z) (Some 2%Q) None None None)
              [med "Paracetamol" 10] "Ibuprofen" (-1) eq_refl eq_refl eq_refl Hnew
              (or_intror (or_introl eq_refl)))
    as [Hanswer [_ [Hstored _]]].
  split; [exact Hanswer | exact Hstored].
Defined.

(** ** Which record the exact stage returns *)




(** ** The previous revision of [check] *)

Section Revision2Runs.
Variable E : environment.
Variable message_of : exn -> string.

Lemma check2_alternatives_all_miss (name : string) (top3 rest : list string) :
  forall w,
    (forall x, In x rest -> exact_in_stock E x (collection w) = Ok None) ->
    Revision2.check_alternatives E name top3 rest w =
    (Ok (Revision2.none_in_stock_answer name top3),
     mkWorld (collection w) (calls w ++ map lookup_call rest)).
Proof.
  induction rest as [|alt rest IH]; intros w Hmiss.
  - cbn. rewrite app_nil_r. now destruct w.
  - cbn [Revision2.check_alternatives]. rewrite lookup_step, (Hmiss alt) by now left.
    rewrite IH by (intros x Hx; apply Hmiss; now right).
    cbn. now rewrite <- app_assoc.
Qed.

Lemma check2_alternatives_first_hit (name : string) (top3 pre : list string)
      (c : string) (post : list string) (m : medicine) :
  forall w,
    (forall x, In x pre -> exact_in_stock E x (collection w) = Ok None) ->
    exact_in_stock E c (collection w) = Ok (Some m) ->
    Revision2.check_alternatives E name top3 (pre ++ c :: post) w =
    (Ok (Revision2.in_stock_answer name c m),
     mkWorld (collection w) (calls w ++ map lookup_call (pre ++ [c]))).
Proof.
  induction pre as [|alt pre IH]; intros w Hmiss Hhit.
  - cbn [app Revision2.check_alternatives]. rewrite lookup_step, Hhit. reflexivity.
  - cbn [app Revision2.check_alternatives]. rewrite lookup_step, (Hmiss alt) by now left.
    rewrite IH; [| intros x Hx; apply Hmiss; now right | exact Hhit].
    cbn. now rewrite <- app_assoc.
Qed.

Lemma check2_alternatives_reads (name : string) (top3 rest : list string) :
  forall w,
    collection (snd (Revision2.check_alternatives E name top3 rest w)) = collection w /\
    exists n, calls (snd (Revision2.check_alternatives E name top3 rest w)) =
              calls w ++ map lookup_call (firstn n rest).
Proof.
  induction rest as [|alt rest IH]; intro w.
  - cbn. split; [reflexivity | exists 0%nat; now rewrite app_nil_r].
  - cbn [Revision2.check_alternatives]. rewrite lookup_step.
    destruct (exact_in_stock E alt (collection w)) as [[m|]|e].
    + cbn. split; [reflexivity | now exists 1%nat].
    + destruct (IH (logged (lookup_call alt) w)) as [Hc [n Hn]].
      split; [exact Hc|]. exists (S n). rewrite Hn. cbn. now rewrite <- app_assoc.
    + cbn. split; [reflexivity | exists 0%nat; now rewrite app_nil_r].
Qed.

(** The candidates this revision goes through, by reply. *)
Lemma check2_run (name : string) (model : option string) (db : list medicine) :
  JS.truthy name = true ->
  Revision2.check E message_of (mkQuery (Some name) model) (start db) =
  match exact_in_stock E name db with
  | Throw e => (Ok (Revision2.server_error message_of e), start db)
  | Ok (Some m) => (Ok (Revision2.available name m), mkWorld db [lookup_call name])
  | Ok None =>
      if (0 <? length (topFuzzy E db name))%nat then
        (Ok (Revision2.similar name (topFuzzy E db name)),
         mkWorld db [lookup_call name; FindAll; FuseSearch name])
      else if negb (JS.includes Revision2.allowedGeminiModels (Revision2.modelToUse model)) then
        (Ok Revision2.invalid_model, mkWorld db [lookup_call name; FindAll; FuseSearch name])
      else
        let after top3 :=
          match Revision2.check_alternatives E name top3 top3
                  (mkWorld db (Revision2.calls_up_to_gemini name model)) with
          | (Ok r, w) => (Ok r, w)
          | (Throw e, w) => (Ok (Revision2.server_error message_of e), w)
          end in
        match generateContent E (Revision2.modelToUse model) (Revision2.prompt_for name) with
        | Text text => after (JS.slice0 3 (Revision2.parse_reply text))
        | ApiError message =>
            if Revision2.includes message "429" then after (JS.slice0 3 Revision2.fallback)
            else (Ok (Revision2.gemini_unreachable message),
                  mkWorld db (Revision2.calls_up_to_gemini name model))
        end
  end.
Proof.
  intro Hname. unfold Revision2.check. cbn [q_name q_model JS.truthy_opt value].
  rewrite Hname. cbn [negb]. unfold try_catch. rewrite lookup_step.
  cbn [start collection].
  destruct (exact_in_stock E name db) as [[m|]|e]; [reflexivity| |reflexivity].
  unfold bind, find_all, fuse_search, generate, ret.
  cbn [collection logged start calls app fst snd]. fold (topFuzzy E db name).
  destruct (0 <? length (topFuzzy E db name))%nat; [reflexivity|].
  destruct (negb (JS.includes Revision2.allowedGeminiModels (Revision2.modelToUse model)));
    [reflexivity|].
  fold (Revision2.calls_up_to_gemini name model).
  destruct (generateContent E (Revision2.modelToUse model) (Revision2.prompt_for name))
    as [text|message]; [reflexivity|].
  destruct (Revision2.includes message "429"); reflexivity.
Qed.

Lemma check2_run_no_name (q : check_query) (db : list medicine) :
  JS.truthy_opt (q_name q) = false ->
  Revision2.check E message_of q (start db) = (Ok Revision2.name_required, start db).
Proof. intro H. unfold Revision2.check. now rewrite H. Qed.

End Revision2Runs.

(** X18.  In the previous revision, a failure of the call to Gemini whose message
    mentions 429 is not an error: Paracetamol, Ibuprofen and Diclofenac are
    looked up instead, in that order; the first one in stock is answered as
    [alternative_available_locally], and when none is in stock the answer
    lists the three names. *)
Theorem quota_failure_falls_back_to_three_fixed_names
        (E : environment) (message_of : exn -> string) (name : string)
        (model : option string) (db : list medicine) (message : string) :
  Revision2.reaches_gemini E name model db ->
  generateContent E (Revision2.modelToUse model) (Revision2.prompt_for name)
    = ApiError message ->
  Revision2.includes message "429" = true ->
  let answer := Revision2.respond (Revision2.check E message_of (mkQuery (Some name) model)) db in
  let log := Revision2.trace (Revision2.check E message_of (mkQuery (Some name) model)) db in
  (forall pre c post m,
      Revision2.fallback = (pre ++ c :: post)%list ->
      (forall x, In x pre -> exact_in_stock E x db = Ok None) ->
      exact_in_stock E c db = Ok (Some m) ->
      answer = Some (Revision2.in_stock_answer name c m) /\
      log = (Revision2.calls_up_to_gemini name model ++ map lookup_call (pre ++ [c]))%list)
  /\
  ((forall x, In x Revision2.fallback -> exact_in_stock E x db = Ok None) ->
   answer = Some (Revision2.none_in_stock_answer name Revision2.fallback) /\
   log = (Revision2.calls_up_to_gemini name model
            ++ map lookup_call Revision2.fallback)%list).
Proof.
  intros [Hname [Hexact [Hfuzzy Hmodel]]] Hreply Hquota answer log.
  assert (Revision2.check E message_of (mkQuery (Some name) model) (start db) =
          match Revision2.check_alternatives E name Revision2.fallback Revision2.fallback
                  (mkWorld db (Revision2.calls_up_to_gemini name model)) with
          | (Ok r, w) => (Ok r, w)
          | (Throw e, w) => (Ok (Revision2.server_error message_of e), w)
          end) as Hrun.
  { rewrite check2_run, Hexact, (topFuzzy_empty E db name Hfuzzy), Hmodel, Hreply, Hquota
      by assumption. reflexivity. }
  unfold answer, log, Revision2.respond, Revision2.trace. rewrite Hrun. split.
  - intros pre c post m Hsplit Hmiss Hhit.
    replace (Revision2.check_alternatives E name Revision2.fallback Revision2.fallback)
      with (Revision2.check_alternatives E name Revision2.fallback (pre ++ c :: post))
      by now rewrite <- Hsplit.
    rewrite (check2_alternatives_first_hit E name _ pre c post m) by assumption.
    split; reflexivity.
  - intro Hmiss. rewrite check2_alternatives_all_miss by assumption. split; reflexivity.
Qed.

Lemma quota_failure_with_ibuprofen_in_stock :
  let E := stub (ApiError "[429 Too Many Requests] quota exceeded") in
  let db := [med "Ibuprofen" 5] in
  Revision2.reaches_gemini E "Crocin" None db /\
  Revision2.includes "[429 Too Many Requests] quota exceeded" "429" = true /\
  Revision2.respond (Revision2.check E Revision2.plain_message (mkQuery (Some "Crocin") None)) db =
    Some (Revision2.in_stock_answer "Crocin" "Ibuprofen" (med "Ibuprofen" 5)) /\
  Revision2.trace (Revision2.check E Revision2.plain_message (mkQuery (Some "Crocin") None)) db =
    (Revision2.calls_up_to_gemini "Crocin" None
       ++ [lookup_call "Paracetamol"; lookup_call "Ibuprofen"])%list.
Proof.
  cbv zeta.
  assert (Revision2.reaches_gemini (stub (ApiError "[429 Too Many Requests] quota exceeded"))
            "Crocin" None [med "Ibuprofen" 5]) as Hreach
    by (repeat split; reflexivity).
  split; [exact Hreach|]. split; [reflexivity|].
  apply (proj1 (quota_failure_falls_back_to_three_fixed_names
                  (stub (ApiError "[429 Too Many Requests] quota exceeded"))
                  Revision2.plain_message "Crocin" None [med "Ibuprofen" 5]
                  "[429 Too Many Requests] quota exceeded" Hreach eq_refl eq_refl)
               ["Paracetamol"] "Ibuprofen" ["Diclofenac"] (med "Ibuprofen" 5)).
  - reflexivity.
  - intros x [<-|[]]. reflexivity.
  - reflexivity.
Defined.

(** X19.  In the previous revision, a failure whose message does not mention
    429 is answered 502 with that message, and no candidate is looked up. *)
Theorem other_failure_is_answered_502_by_the_previous_revision
        (E : environment) (message_of : exn -> string) (name : string)
        (model : option string) (db : list medicine) (message : string) :
  Revision2.reaches_gemini E name model db ->
  generateContent E (Revision2.modelToUse model) (Revision2.prompt_for name)
    = ApiError message ->
  Revision2.includes message "429" = false ->
  Revision2.respond (Revision2.check E message_of (mkQuery (Some name) model)) db =
    Some (Revision2.gemini_unreachable message) /\
  Revision2.status (Revision2.gemini_unreachable message) = 502%nat /\
  Revision2.trace (Revision2.check E message_of (mkQuery (Some name) model)) db =
    Revision2.calls_up_to_gemini name model.
Proof.
  intros [Hname [Hexact [Hfuzzy Hmodel]]] Hreply Hother.
  unfold Revision2.respond, Revision2.trace.
  rewrite check2_run, Hexact, (topFuzzy_empty E db name Hfuzzy), Hmodel, Hreply, Hother
    by assumption.
  repeat split.
Qed.

Lemma forbidden_is_answered_502_by_the_previous_revision :
  Revision2.reaches_gemini (stub (ApiError "403 Forbidden")) "Crocin" None [] /\
  Revision2.includes "403 Forbidden" "429" = false /\
  Revision2.respond
    (Revision2.check (stub (ApiError "403 Forbidden")) Revision2.plain_message
                     (mkQuery (Some "Crocin") None)) [] =
    Some (Revision2.gemini_unreachable "403 Forbidden").
Proof.
  assert (Revision2.reaches_gemini (stub (ApiError "403 Forbidden")) "Crocin" None [])
    as Hreach by (repeat split; reflexivity).
  split; [exact Hreach|]. split; [reflexivity|].
  exact (proj1 (other_failure_is_answered_502_by_the_previous_revision
                  (stub (ApiError "403 Forbidden")) Revision2.plain_message
                  "Crocin" None [] "403 Forbidden" Hreach eq_refl eq_refl)).
Defined.

(** X20.  The previous revision trims the reply before it looks for the token:
    [none] in any letter case, with or without whitespace around it, means
    no candidates, no lookup, and an answer with an empty list. *)
Theorem previous_revision_recognises_a_padded_none
        (E : environment) (message_of : exn -> string) (name : string)
        (model : option string) (db : list medicine) (text : string) :
  Revision2.reaches_gemini E name model db ->
  generateContent E (Revision2.modelToUse model) (Revision2.prompt_for name) = Text text ->
  JS.toLowerCase (JS.trim text) = "none" ->
  Revision2.respond (Revision2.check E message_of (mkQuery (Some name) model)) db =
    Some (Revision2.none_in_stock_answer name []) /\
  Revision2.trace (Revision2.check E message_of (mkQuery (Some name) model)) db =
    Revision2.calls_up_to_gemini name model.
Proof.
  intros [Hname [Hexact [Hfuzzy Hmodel]]] Hreply Hnone.
  assert (Revision2.parse_reply text = []) as Hparse.
  { unfold Revision2.parse_reply. cbv zeta. rewrite Hnone. cbn.
    now rewrite andb_false_r. }
  unfold Revision2.respond, Revision2.trace.
  rewrite check2_run, Hexact, (topFuzzy_empty E db name Hfuzzy), Hmodel, Hreply
    by assumption.
  cbn [negb]. cbv zeta. rewrite Hparse. split; reflexivity.
Qed.

Lemma previous_revision_on_none_with_a_line_break :
  let E := stub (Text ("None" ++ newline)) in
  Revision2.reaches_gemini E "Crocin" None [] /\
  JS.toLowerCase (JS.trim ("None" ++ newline)) = "none" /\
  Revision2.respond (Revision2.check E Revision2.plain_message (mkQuery (Some "Crocin") None)) [] =
    Some (Revision2.none_in_stock_answer "Crocin" []).
Proof.
  cbv zeta.
  assert (Revision2.reaches_gemini (stub (Text ("None" ++ newline))) "Crocin" None [])
    as Hreach by (repeat split; reflexivity).
  split; [exact Hreach|]. split; [reflexivity|].
  exact (proj1 (previous_revision_recognises_a_padded_none
                  (stub (Text ("None" ++ newline))) Revision2.plain_message
                  "Crocin" None [] ("None" ++ newline) Hreach eq_refl eq_refl)).
Defined.

(** X21.  The previous revision of [check] only reads the collection and looks
    up at most three candidates after the call to Gemini, whether these come
    from the reply or from the fixed list. *)
Theorem previous_revision_reads_and_looks_up_at_most_three
        (E : environment) (message_of : exn -> string) (q : check_query)
        (db : list medicine) :
  Revision2.stored (Revision2.check E message_of q) db = db /\
  (length (filter is_lookup
                  (Revision2.trace (Revision2.check E message_of q) db)) <= 4)%nat /\
  (suggester_calls (Revision2.trace (Revision2.check E message_of q) db) <= 1)%nat.
Proof.
  assert (forall name model top3,
             (length top3 <= 3)%nat ->
             let w := snd (match Revision2.check_alternatives E name top3 top3
                                   (mkWorld db (Revision2.calls_up_to_gemini name model)) with
                           | (Ok r, w) => (Ok r, w)
                           | (Throw e, w) => (Ok (Revision2.server_error message_of e), w)
                           end) in
             collection w = db /\
             (length (filter is_lookup
                             (calls w)) <= 4)%nat /\
             (suggester_calls (calls w) <= 1)%nat) as Hloop.
  { intros name model top3 Hshort w.
    destruct (check2_alternatives_reads E name top3 top3
                (mkWorld db (Revision2.calls_up_to_gemini name model))) as [Hkeep [n Hn]].
    assert (w = snd (Revision2.check_alternatives E name top3 top3
                       (mkWorld db (Revision2.calls_up_to_gemini name model)))) as ->
      by (unfold w; now destruct (Revision2.check_alternatives E name top3 top3 _) as [[r|e] w']).
    split; [exact Hkeep|]. rewrite Hn. cbn [calls]. unfold suggester_calls.
    rewrite !filter_app, !length_app, lookups_are_not_generate. cbn [length].
    split; [|cbn; lia].
    assert (length (filter is_lookup
                           (map lookup_call (firstn n top3))) <= 3)%nat as Hlook.
    { eapply Nat.le_trans; [apply filter_length_le|].
      rewrite length_map, length_firstn. lia. }
    cbn. lia. }
  unfold Revision2.stored, Revision2.trace.
  destruct (JS.truthy_opt (q_name q)) eqn:Hname.
  - destruct q as [[name|] model]; [|discriminate]. cbn in Hname.
    rewrite check2_run by assumption.
    destruct (exact_in_stock E name db) as [[m|]|e]; try (cbn; repeat split; lia).
    destruct (0 <? length (topFuzzy E db name))%nat; [cbn; repeat split; lia|].
    destruct (negb (JS.includes Revision2.allowedGeminiModels (Revision2.modelToUse model)));
      [cbn; repeat split; lia|].
    cbv zeta.
    destruct (generateContent E (Revision2.modelToUse model) (Revision2.prompt_for name))
      as [text|message].
    + apply Hloop. unfold JS.slice0. rewrite length_firstn. lia.
    + destruct (Revision2.includes message "429"); [|cbn; repeat split; lia].
      apply Hloop. cbn. lia.
  - rewrite check2_run_no_name by assumption. cbn. repeat split; lia.
Qed.

(** ** The calls of one request *)

(** X22.  One request to [check] makes at most seven calls to its collaborators
    (the exact lookup, the listing, the fuzzy search, the call to Gemini and
    three candidate lookups), at most four of them in-stock lookups, and
    none of them writes to the collection. *)
Theorem check_makes_at_most_seven_calls_and_no_write
        (E : environment) (q : check_query) (db : list medicine) :
  (length (trace (check E q) db) <= 7)%nat /\
  (length (filter is_lookup (trace (check E q) db)) <= 4)%nat /\
  filter is_write (trace (check E q) db) = [].
Proof.
  destruct (JS.truthy_opt (q_name q)) eqn:Hname.
  - destruct q as [[name|] model]; [|discriminate]. cbn in Hname.
    destruct (check_cases E name model db Hname)
      as [[e [_ [_ Ht]]]|[[m [_ [_ Ht]]]|[[_ [_ [_ Ht]]]|[[_ [_ [_ [_ Ht]]]]
         |[[_ [_ [_ [msg [_ [_ Ht]]]]]]|[_ [_ [_ [raw [_ [[n Ht] _]]]]]]]]]]];
      rewrite Ht; try (cbn; repeat split; lia).
    pose proof (top3_short raw) as Hshort.
    assert (length (firstn n (JS.slice0 3 (parse_alternatives raw))) <= 3)%nat as Hn
      by (rewrite length_firstn; lia).
    rewrite !filter_app, !length_app, length_map.
    split; [unfold calls_up_to_gemini; cbn [length]; lia|]. split.
    + assert (length (filter is_lookup
                        (map lookup_call (firstn n (JS.slice0 3 (parse_alternatives raw)))))
              <= 3)%nat as Hlook
        by (eapply Nat.le_trans; [apply filter_length_le | now rewrite length_map]).
      unfold calls_up_to_gemini. cbn [filter is_lookup lookup_call length]. lia.
    + unfold calls_up_to_gemini. cbn [filter is_write lookup_call app].
      clear. induction (firstn n (JS.slice0 3 (parse_alternatives raw))) as [|x l IH];
        [reflexivity | exact IH].
  - unfold trace. rewrite check_run_no_name by assumption. cbn. repeat split; lia.
Qed.
